(** * Form actions of the bookmark manager ([src/routes/+page.server.ts])

    A shallow embedding of the eleven SvelteKit form actions and of the
    [storeImage] helper.  The handlers are asynchronous JavaScript with
    exceptions and a database behind an ORM; they are modelled in a
    state-and-exception monad over a [World] that holds the tables the
    handlers touch, the state of the external collaborators, and the log of
    the SQL statements issued so far.

    Conventions.
    - JavaScript numbers are modelled on the integers ([Z]); [NaN] is
      [None] in [Num].
    - [null] and an absent form field are [None]; object keys whose value is
      [undefined] are left out of a statement's assignment list, as the ORM
      drops them.
    - A cell of a row holds the value handed to the ORM, and a select
      returns it as stored; of the encoding the driver applies in between
      only one step is modelled: a [NaN] is bound as [NULL], since SQLite
      stores no [NaN].
    - [new Date()] reads the timestamp carried by the request event. *)

From Stdlib Require Import ZArith List String Ascii Bool Lia.
From stdpp Require Import base option list gmap strings pretty.

Set Warnings "-register-all".

Local Open Scope string_scope.
Local Open Scope Z_scope.

(** ** JavaScript values *)

(** A number read by [parseInt]: [None] is [NaN]. *)
Definition Num := option Z.

(** A timestamp produced by [new Date()]. *)
Definition Time := Z.

(** The values the handlers compute with.  [undefined] is not a value: a
    possibly undefined expression has type [option Val]. *)
Inductive Val : Type :=
| VNull
| VBool (b : bool)
| VNum (n : Z)
| VNaN
| VStr (s : string)
| VDate (t : Time)
| VArr (xs : list Val)
| VObj (m : gmap string Val).

(** A plain object: a row, an object literal, a response. *)
Abbreviation Obj := (gmap string Val).

(** An object literal; a property whose value is [undefined] is left out. *)
Definition obj (props : list (string * option Val)) : Obj :=
  list_to_map (omap (fun kv => pair kv.1 <$> kv.2) props).

Definition num_val (n : Num) : Val :=
  match n with
  | Some n => VNum n
  | None => VNaN
  end.

(** A form field as a value: the string, or [null] when absent. *)
Definition str_val (s : option string) : Val :=
  match s with
  | Some s => VStr s
  | None => VNull
  end.

(** What a handler can throw. *)
Inductive Thrown : Type :=
| TypeError (msg : string)
| Raised (tag : string).

Inductive Outcome (A : Type) : Type :=
| Return (a : A)
| Throw (e : Thrown).
Arguments Return {A} a.
Arguments Throw {A} e.

(** Truthiness. *)
Definition truthy_val (v : Val) : bool :=
  match v with
  | VNull => false
  | VBool b => b
  | VNum n => negb (n =? 0)
  | VNaN => false
  | VStr s => negb (String.eqb s "")
  | VDate _ => true
  | VArr _ => true
  | VObj _ => true
  end.

Definition truthy (v : option Val) : bool :=
  match v with
  | Some v => truthy_val v
  | None => false
  end.

Definition truthy_str (s : option string) : bool := truthy (VStr <$> s).

Definition truthy_num (n : option Z) : bool := truthy (VNum <$> n).

(** [a ?? b]: [b] when [a] is [null] or [undefined], [a] otherwise. *)
Definition nullish (a : option Val) (b : Val) : Val :=
  match a with
  | None => b
  | Some VNull => b
  | Some v => v
  end.

(** [a || b] *)
Definition or_else (a : option string) (b : string) : string :=
  match a with
  | Some s => if truthy_str a then s else b
  | None => b
  end.

(** [x?.value]: the property of an object; [undefined] on [null] and on
    values without that property. *)
Definition get_value (x : Val) : option Val :=
  match x with
  | VObj m => m !! "value"
  | _ => None
  end.

(** [x?.value ? x.value : x] *)
Definition value_or_self (x : Val) : Val :=
  if truthy (get_value x) then default x (get_value x) else x.

(** The own enumerable properties copied by an object spread [{...x}]. *)
Definition index_keys {A : Type} (xs : list A) : list (string * A) :=
  imap (fun i x => (pretty (N.of_nat i), x)) xs.

Definition chars (s : string) : list Val :=
  (fun c => VStr (String c EmptyString)) <$> list_ascii_of_string s.

Definition spread (x : Val) : Obj :=
  match x with
  | VObj m => m
  | VArr xs => list_to_map (index_keys xs)
  | VStr s => list_to_map (index_keys (chars s))
  | _ => ∅
  end.

(** [s.split('.').pop()]: what follows the last dot, the whole string when
    there is none. *)
Fixpoint after_last_dot (s : string) : string :=
  match s with
  | EmptyString => EmptyString
  | String c r =>
      if Ascii.eqb c "." then after_last_dot r
      else if existsb (Ascii.eqb ".") (list_ascii_of_string r) then after_last_dot r
      else s
  end.

(** ** [parseInt]

    White space is the ASCII white space; strings are byte strings. *)

Definition is_space (c : ascii) : bool :=
  let n := nat_of_ascii c in
  ((9 <=? n) && (n <=? 13))%nat || (n =? 32)%nat.

Definition digit_val (c : ascii) : option Z :=
  let n := Z.of_nat (nat_of_ascii c) in
  if (48 <=? n) && (n <=? 57) then Some (n - 48)
  else if (97 <=? n) && (n <=? 122) then Some (n - 87)
  else if (65 <=? n) && (n <=? 90) then Some (n - 55)
  else None.

Fixpoint skip_space (s : string) : string :=
  match s with
  | String c r => if is_space c then skip_space r else s
  | EmptyString => s
  end.

(** The longest prefix of digits below [radix], read left to right. *)
Fixpoint read_digits (radix : Z) (s : string) (acc : option Z) : option Z :=
  match s with
  | String c r =>
      match digit_val c with
      | Some d =>
          if d <? radix then read_digits radix r (Some (default 0 acc * radix + d))
          else acc
      | None => acc
      end
  | EmptyString => acc
  end.

Definition strip_hex (s : string) : option string :=
  match s with
  | String "0" (String "x" r) => Some r
  | String "0" (String "X" r) => Some r
  | _ => None
  end.

(** The digits after the sign.  Without a radix (or with radix 0) a [0x]
    prefix selects base 16 and base 10 is used otherwise; radix 16 allows
    the prefix too; a radix outside 2..36 gives [NaN]. *)
Definition parse_unsigned (radix : option Z) (s : string) : Num :=
  match radix with
  | None | Some 0 =>
      match strip_hex s with
      | Some r => read_digits 16 r None
      | None => read_digits 10 s None
      end
  | Some 16 => read_digits 16 (default s (strip_hex s)) None
  | Some r => if (2 <=? r) && (r <=? 36) then read_digits r s None else None
  end.

(** [parseInt(x, radix)]; a [null] argument is converted to the string
    ["null"] first. *)
Definition parseInt (x : option string) (radix : option Z) : Num :=
  match skip_space (default "null" x) with
  | String "-" r => Z.opp <$> parse_unsigned radix r
  | String "+" r => parse_unsigned radix r
  | s => parse_unsigned radix s
  end.

(** ** The database behind the ORM *)

Inductive Table : Type :=
| bookmarkSchema
| bookmarksToTagsSchema
| categorySchema
| userSchema.

(** Modelled from the spec: the column names of each table.  The schema
    module ([$lib/database/schema]) is not part of this file; the names are
    those of section 3 of the specification, spelled as the statements of
    this file spell them. *)
Definition columns (t : Table) : list string :=
  match t with
  | bookmarkSchema =>
      ["id"; "ownerId"; "url"; "domain"; "title"; "description"; "author";
       "contentText"; "contentHtml"; "contentType"; "contentPublishedDate";
       "mainImageId"; "mainImageUrl"; "iconId"; "iconUrl"; "note";
       "importance"; "flagged"; "read"; "openedTimes"; "openedLast";
       "categoryId"]
  | bookmarksToTagsSchema => ["bookmarkId"; "tagId"]
  | categorySchema =>
      ["id"; "name"; "slug"; "description"; "icon"; "color"; "parent";
       "archived"; "public"; "owner"; "initial"; "created"; "updated"]
  | userSchema => ["id"; "settings"]
  end.

(** The row filter of a statement: none, or [eq(table.id, n)]. *)
Inductive Filter : Type :=
| NoFilter
| IdEq (v : option Val).

(** The statements the handlers build, as the handlers write them. *)
Inductive Stmt : Type :=
| Insert (t : Table) (values : Obj)
| Update (t : Table) (set : Obj) (where_ : Filter)
| Delete (t : Table) (where_ : Filter)
| Select (t : Table) (fields : list (string * string)) (where_ : Filter).

Record DB : Type := mkDB {
  bookmarks : list Obj;
  bookmarksToTags : list Obj;
  categories : list Obj;
  users : list Obj;
  bookmarkSeq : Z;
  categorySeq : Z
}.

Definition rows (t : Table) (d : DB) : list Obj :=
  match t with
  | bookmarkSchema => bookmarks d
  | bookmarksToTagsSchema => bookmarksToTags d
  | categorySchema => categories d
  | userSchema => users d
  end.

Definition set_rows (t : Table) (rs : list Obj) (d : DB) : DB :=
  match t with
  | bookmarkSchema =>
      mkDB rs (bookmarksToTags d) (categories d) (users d) (bookmarkSeq d) (categorySeq d)
  | bookmarksToTagsSchema =>
      mkDB (bookmarks d) rs (categories d) (users d) (bookmarkSeq d) (categorySeq d)
  | categorySchema =>
      mkDB (bookmarks d) (bookmarksToTags d) rs (users d) (bookmarkSeq d) (categorySeq d)
  | userSchema =>
      mkDB (bookmarks d) (bookmarksToTags d) (categories d) rs (bookmarkSeq d) (categorySeq d)
  end.

(** The identifier the database assigns to the next inserted row of a table
    with a generated key. *)
Definition next_id (t : Table) (d : DB) : option Z :=
  match t with
  | bookmarkSchema => Some (bookmarkSeq d)
  | categorySchema => Some (categorySeq d)
  | _ => None
  end.

Definition bump_seq (t : Table) (d : DB) : DB :=
  match t with
  | bookmarkSchema =>
      mkDB (bookmarks d) (bookmarksToTags d) (categories d) (users d)
           (bookmarkSeq d + 1) (categorySeq d)
  | categorySchema =>
      mkDB (bookmarks d) (bookmarksToTags d) (categories d) (users d)
           (bookmarkSeq d) (categorySeq d + 1)
  | _ => d
  end.

(** The ORM keeps of an object only the keys that are columns. *)
Definition restrict (t : Table) (o : Obj) : Obj :=
  list_to_map (omap (fun k => pair k <$> o !! k) (columns t)).

(** Every column, [NULL]. *)
Definition null_row (t : Table) : Obj :=
  list_to_map ((fun k => (k, VNull)) <$> columns t).

Definition matches (w : Filter) (r : Obj) : bool :=
  match w with
  | NoFilter => true
  | IdEq (Some (VNum n)) =>
      match r !! "id" with
      | Some (VNum m) => m =? n
      | _ => false
      end
  | IdEq _ => false
  end.

(** A value as the driver binds it to a statement: SQLite has no [NaN] and
    stores [NULL] for it. *)
Definition bound (v : Val) : Val :=
  match v with
  | VNaN => VNull
  | _ => v
  end.

(** The values a statement stores: the keys of its object that are columns,
    each as the driver binds it. *)
Definition bind_values (t : Table) (o : Obj) : Obj := restrict t (bound <$> o).

(** The row stored by an insert: the supplied columns, the generated key,
    the declared defaults, [NULL] elsewhere. *)
Definition new_row (defaults : Obj) (t : Table) (values : Obj) (d : DB) : Obj :=
  bind_values t values
  ∪ default ∅ ((fun n => {[ "id" := VNum n ]}) <$> next_id t d)
  ∪ restrict t defaults
  ∪ null_row t.

Definition apply_insert (defaults : Obj) (t : Table) (values : Obj) (d : DB) : DB :=
  bump_seq t (set_rows t (rows t d ++ [new_row defaults t values d]) d).

Definition patch_row (t : Table) (set : Obj) (w : Filter) (r : Obj) : Obj :=
  if matches w r then bind_values t set ∪ r else r.

Definition apply_update (t : Table) (set : Obj) (w : Filter) (d : DB) : DB :=
  set_rows t (patch_row t set w <$> rows t d) d.

(** Modelled from the spec: what a delete does to the rows of other tables
    is decided by the foreign keys of the schema module
    ([$lib/database/schema]), which is not part of this file.  The
    specification describes the deletes of this file as a delete by id with
    no cascade handling, so a delete removes the selected rows of the table
    it names and leaves the other tables as they are. *)
Definition apply_delete (t : Table) (w : Filter) (d : DB) : DB :=
  set_rows t (filter (fun r => matches w r = false) (rows t d)) d.

Definition project (fields : list (string * string)) (r : Obj) : Obj :=
  list_to_map ((fun f => (f.1, default VNull (r !! f.2))) <$> fields).

Definition run_select (t : Table) (fields : list (string * string)) (w : Filter)
    (d : DB) : list Obj :=
  project fields <$> filter (fun r => matches w r = true) (rows t d).

(** ** The world of a request *)

(** The tables, the state of the external collaborators (tag and file
    tables, object storage, network), and the statements issued so far. *)
Record World (Ext : Type) : Type := mkWorld {
  db : DB;
  ext : Ext;
  log : list Stmt
}.
Arguments mkWorld {Ext} db ext log.
Arguments db {Ext} w.
Arguments ext {Ext} w.
Arguments log {Ext} w.

(** The collaborators this file imports.  None of them is defined in this
    file; each is a parameter of the model.

    Modelled from the spec: [prepareTags] (the tag resolver) returns the
    tag identifiers and creates tags as needed, so it acts on the external
    state only; [handlePBError] is the shared helper that formats what it is
    given into a response. *)
Record Env (Ext : Type) : Type := mkEnv {
  (* [JSON.parse(x)], applied to a value as read *)
  JSON_parse : Val -> Outcome Val;
  (* [prepareTags(db, tags, owner)] *)
  prepareTags : Val -> Z -> Ext -> Ext * Outcome (list Z);
  (* [checkIfImageURL(url)] *)
  checkIfImageURL : string -> bool;
  (* [createSlug(text)] *)
  createSlug : option string -> Outcome string;
  (* [fetch(url).then((r) => r.arrayBuffer())] *)
  fetch : string -> Ext -> Ext * Outcome string;
  (* [storage.storeFile(file(bytes), { ownerId, fileName })], destructured
     to the identifier of the stored file *)
  storeFile : string -> Z -> string -> Ext -> Ext * Outcome Z;
  (* [handlePBError(x, pb, true)] *)
  handlePBError : Thrown + Val -> Val;
  (* the error, if any, with which the driver rejects a statement *)
  dbFault : Stmt -> DB -> option Thrown;
  (* the column defaults the schema declares *)
  tableDefaults : Table -> Obj
}.
Arguments JSON_parse {Ext} e.
Arguments prepareTags {Ext} e.
Arguments checkIfImageURL {Ext} e.
Arguments createSlug {Ext} e.
Arguments fetch {Ext} e.
Arguments storeFile {Ext} e.
Arguments handlePBError {Ext} e.
Arguments dbFault {Ext} e.
Arguments tableDefaults {Ext} e.

(** The request event handed to an action. *)
Module User.
Record t : Type := mk { id : Z }.
End User.

Record Locals : Type := mkLocals { user : option User.t }.

(** [FormData]: the fields in order; [get] reads the first of a name. *)
Definition FormData := list (string * string).

Fixpoint get (name : string) (data : FormData) : option string :=
  match data with
  | [] => None
  | (k, v) :: rest => if String.eqb k name then Some v else get name rest
  end.

Record Request : Type := mkRequest { formData : Outcome FormData }.

Record RequestEvent : Type := mkEvent {
  locals : Locals;
  request : Request;
  now : Time
}.

(** ** Asynchronous code with exceptions: a state and exception monad *)

Definition M (Ext A : Type) : Type := World Ext -> World Ext * Outcome A.

Definition ret {Ext A : Type} (a : A) : M Ext A := fun w => (w, Return a).

Definition throw {Ext A : Type} (e : Thrown) : M Ext A := fun w => (w, Throw e).

Definition bind {Ext A B : Type} (m : M Ext A) (k : A -> M Ext B) : M Ext B :=
  fun w =>
    match m w with
    | (w', Return a) => k a w'
    | (w', Throw e) => (w', Throw e)
    end.

(** [try { m } catch (e) { h e }] *)
Definition try_catch {Ext A : Type} (m : M Ext A) (h : Thrown -> M Ext A) : M Ext A :=
  fun w =>
    match m w with
    | (w', Return a) => (w', Return a)
    | (w', Throw e) => h e w'
    end.

Declare Scope action_scope.
Delimit Scope action_scope with action.
Notation "x <- m ;; k" := (bind m (fun x => k))
  (at level 100, m at next level, right associativity) : action_scope.
Notation "m ;; k" := (bind m (fun _ => k))
  (at level 100, right associativity) : action_scope.
Local Open Scope action_scope.

Definition lift {Ext A : Type} (o : Outcome A) : M Ext A := fun w => (w, o).

(** A call into an external collaborator. *)
Definition call {Ext A : Type} (f : Ext -> Ext * Outcome A) : M Ext A :=
  fun w => let (x, o) := f (ext w) in (mkWorld (db w) x (log w), o).

(** [xs.map(f)] with a callback that may throw. *)
Fixpoint map_sync {Ext A B : Type} (f : A -> M Ext B) (xs : list A) : M Ext (list B) :=
  match xs with
  | [] => ret []
  | x :: rest => y <- f x ;; ys <- map_sync f rest ;; ret (y :: ys)
  end.

(** [await Promise.all(ps)]: every promise runs, here in the order of the
    list; the results are returned when all fulfil, and the first rejection
    is thrown otherwise, after the remaining promises have run. *)
Fixpoint promise_all {Ext A : Type} (ps : list (M Ext A)) : M Ext (list A) :=
  match ps with
  | [] => ret []
  | p :: rest =>
      fun w =>
        match p w with
        | (w1, Return a) =>
            match promise_all rest w1 with
            | (w2, Return others) => (w2, Return (a :: others))
            | (w2, Throw e) => (w2, Throw e)
            end
        | (w1, Throw e) => (fst (promise_all rest w1), Throw e)
        end
  end.

(** [x.k] on a possibly undefined [x]. *)
Definition member {Ext : Type} (x : option Obj) (k : string) : M Ext (option Val) :=
  match x with
  | Some o => ret (o !! k)
  | None => throw (TypeError ("undefined is not an object (reading " ++ k ++ ")"))
  end.

(** ** Statements *)

Section Statements.
Context {Ext : Type} (env : Env Ext).

(** Handing a statement to the driver: it is logged, then accepted or
    rejected. *)
Definition issue (s : Stmt) : M Ext unit :=
  fun w =>
    let w' := mkWorld (db w) (ext w) (log w ++ [s]) in
    match dbFault env s (db w) with
    | Some e => (w', Throw e)
    | None => (w', Return tt)
    end.

Definition read_db : M Ext DB := fun w => (w, Return (db w)).

Definition write_db (d : DB) : M Ext unit :=
  fun w => (mkWorld d (ext w) (log w), Return tt).

(** [db.insert(t).values(v).returning()] *)
Definition insert (t : Table) (values : Obj) : M Ext (list Obj) :=
  issue (Insert t values) ;;
  d <- read_db ;;
  write_db (apply_insert (tableDefaults env t) t values d) ;;
  ret [new_row (tableDefaults env t) t values d].

(** [db.update(t).set(s).where(w).returning()] *)
Definition update (t : Table) (set : Obj) (w : Filter) : M Ext (list Obj) :=
  issue (Update t set w) ;;
  d <- read_db ;;
  write_db (apply_update t set w d) ;;
  ret (filter (fun r => matches w r = true) (rows t (apply_update t set w d))).

(** [db.delete(t).where(w)] *)
Definition delete_from (t : Table) (w : Filter) : M Ext unit :=
  issue (Delete t w) ;;
  d <- read_db ;;
  write_db (apply_delete t w d).

(** [db.select(fields).from(t).where(w)] *)
Definition select (t : Table) (fields : list (string * string)) (w : Filter)
    : M Ext (list Obj) :=
  issue (Select t fields w) ;;
  d <- read_db ;;
  ret (run_select t fields w d).

(** [JSON.parse(x)] where [x] may be [undefined], which is no JSON text. *)
Definition JSON_parse_opt (x : option Val) : Outcome Val :=
  match x with
  | Some v => JSON_parse env v
  | None => Throw (Raised "SyntaxError")
  end.

(** ** [storeImage] *)

Definition storeImage (url title : option string) (ownerId : Z) : M Ext (option Z) :=
  match url with
  | Some u =>
      if truthy_str url && checkIfImageURL env u then
        arrayBuffer <- call (fetch env u) ;;
        slug <- lift (createSlug env title) ;;
        let fileName := slug ++ "." ++ after_last_dot u in
        id <- call (storeFile env arrayBuffer ownerId fileName) ;;
        ret (Some id)
      else ret None
  | None => ret None
  end.

(** ** The actions *)

(** [locals.user?.id] *)
Definition owner_of (ev : RequestEvent) : option Z :=
  User.id <$> user (locals ev).

(** [data.get(name) === 'on' ? new Date() : null] *)
Definition toggle (ev : RequestEvent) (field : option string) : Val :=
  match field with
  | Some "on" => VDate (now ev)
  | _ => VNull
  end.

(** [v === 'null' ? null : v] *)
Definition null_string_to_null (v : Val) : Val :=
  match v with
  | VStr "null" => VNull
  | _ => v
  end.

Definition unauthorized : Val :=
  VObj (obj [("success", Some (VBool false)); ("error", Some (VStr "Unauthorized"))]).

Definition failure : Val := VObj (obj [("success", Some (VBool false))]).

Definition succeeded : Val := VObj (obj [("success", Some (VBool true))]).

(** The image patch shared by [addNewBookmark] and [updateBookmark]. *)
Definition image_set (mainImageId iconId : option Z) : Obj :=
  obj [("mainImageId", VNum <$> mainImageId); ("iconId", VNum <$> iconId)].

(** The join row [{ bookmarkId, tagId }]. *)
Definition join_values (bookmarkId : option Val) (tagId : Z) : Obj :=
  obj [("bookmarkId", bookmarkId); ("tagId", Some (VNum tagId))].

(** The [try] block of [addNewBookmark]. *)
Definition addNewBookmark_try (ev : RequestEvent) (owner : Z) (data : FormData)
    : M Ext Val :=
  let url := get "url" data in
  let domain := get "domain" data in
  let title := get "title" data in
  let description := get "description" data in
  let author := get "author" data in
  let contentText := get "content_text" data in
  let contentHtml := get "content_html" data in
  let contentType := get "content_type" data in
  let contentPublishedDate := get "content_published_date" data in
  let mainImageUrl := get "main_image_url" data in
  let iconUrl := get "icon_url" data in
  let note := get "note" data in
  let importance := parseInt (Some (or_else (get "importance" data) "0")) None in
  let flagged := toggle ev (get "flagged" data) in
  category <- lift (JSON_parse env (str_val (get "category" data))) ;;
  tags <- (if truthy_str (get "tags" data)
           then lift (JSON_parse env (str_val (get "tags" data)))
           else ret (VArr [])) ;;
  tagIds <- call (prepareTags env tags owner) ;;
  let bookmarkData := obj
    [("ownerId", Some (VNum owner));
     ("url", Some (str_val url));
     ("author", Some (str_val author));
     ("categoryId", Some (value_or_self category));
     ("title", Some (str_val title));
     ("contentHtml", Some (str_val contentHtml));
     ("contentPublishedDate", Some (str_val contentPublishedDate));
     ("contentText", Some (str_val contentText));
     ("contentType", Some (str_val contentType));
     ("description", Some (str_val description));
     ("domain", Some (str_val domain));
     ("flagged", Some flagged);
     ("iconUrl", Some (str_val iconUrl));
     ("importance", Some (num_val importance));
     ("mainImageUrl", Some (str_val mainImageUrl));
     ("note", Some (str_val note))] in
  inserted <- insert bookmarkSchema bookmarkData ;;
  bookmarkId <- member (head inserted) "id" ;;
  if negb (truthy bookmarkId)
  then ret (handlePBError env (inr (VObj (default ∅ (head inserted)))))
  else
    promise_all
      ((fun tagId => insert bookmarksToTagsSchema (join_values bookmarkId tagId))
         <$> tagIds) ;;
    mainImageId <- storeImage mainImageUrl title owner ;;
    iconId <- storeImage iconUrl title owner ;;
    (if truthy_num mainImageId || truthy_num iconId
     then update bookmarkSchema (image_set mainImageId iconId) (IdEq bookmarkId) ;;
          ret tt
     else ret tt) ;;
    ret (VObj (obj [("bookmark", VObj <$> head inserted);
                    ("success", Some (VBool true))])).

Definition addNewBookmark (ev : RequestEvent) : M Ext Val :=
  match owner_of ev with
  | None => ret unauthorized
  | Some owner =>
      if negb (truthy_val (VNum owner)) then ret unauthorized else
      data <- lift (formData (request ev)) ;;
      try_catch (addNewBookmark_try ev owner data)
                (fun e => ret (handlePBError env (inl e)))
  end.

Definition deleteBookmark (ev : RequestEvent) : M Ext Val :=
  match owner_of ev with
  | None => ret unauthorized
  | Some owner =>
      if negb (truthy_val (VNum owner)) then ret unauthorized else
      data <- lift (formData (request ev)) ;;
      let id := parseInt (get "id" data) (Some 10) in
      delete_from bookmarkSchema (IdEq (Some (num_val id))) ;;
      ret (VObj (obj [("id", Some (num_val id)); ("success", Some (VBool true))]))
  end.

Definition updateBookmark (ev : RequestEvent) : M Ext Val :=
  match owner_of ev with
  | None => ret unauthorized
  | Some owner =>
      if negb (truthy_val (VNum owner)) then ret unauthorized else
      data <- lift (formData (request ev)) ;;
      let id := parseInt (get "id" data) (Some 10) in
      let url := get "url" data in
      let domain := get "domain" data in
      let title := get "title" data in
      let description := get "description" data in
      let author := get "author" data in
      let contentText := get "content_text" data in
      let contentHtml := get "content_html" data in
      let contentType := get "content_type" data in
      let contentPublishedDate := get "content_published_date" data in
      let mainImageUrl := get "main_image_url" data in
      let iconUrl := get "icon_url" data in
      let note := get "note" data in
      let importance := parseInt (Some (or_else (get "importance" data) "0")) None in
      let flagged := toggle ev (get "flagged" data) in
      category <- lift (JSON_parse env (str_val (get "category" data))) ;;
      tags <- (if truthy_str (get "tags" data)
               then lift (JSON_parse env (str_val (get "tags" data)))
               else ret (VArr [])) ;;
      tagIds <- call (prepareTags env tags owner) ;;
      let bookmarkData := obj
        [("author", Some (str_val author));
         ("category", Some (value_or_self category));
         ("tags", Some (VArr (VNum <$> tagIds)));
         ("contentHtml", Some (str_val contentHtml));
         ("contentPublishedDate", Some (str_val contentPublishedDate));
         ("contentText", Some (str_val contentText));
         ("contentType", Some (str_val contentType));
         ("description", Some (str_val description));
         ("domain", Some (str_val domain));
         ("flagged", Some flagged);
         ("iconUrl", Some (str_val iconUrl));
         ("importance", Some (num_val importance));
         ("mainImageUrl", Some (str_val mainImageUrl));
         ("note", Some (str_val note));
         ("owner", Some (VNum owner));
         ("title", Some (str_val title));
         ("url", Some (str_val url))] in
      updated <- update bookmarkSchema bookmarkData (IdEq (Some (num_val id))) ;;
      let bookmark := head updated in
      inserts <- map_sync
        (fun tagId =>
           bookmarkId <- member bookmark "id" ;;
           ret (insert bookmarksToTagsSchema (join_values bookmarkId tagId)))
        tagIds ;;
      promise_all inserts ;;
      mainImageId <- storeImage mainImageUrl title owner ;;
      iconId <- storeImage iconUrl title owner ;;
      (if truthy_num mainImageId || truthy_num iconId
       then bookmarkId <- member bookmark "id" ;;
            update bookmarkSchema (image_set mainImageId iconId) (IdEq bookmarkId) ;;
            ret tt
       else ret tt) ;;
      ret (VObj (obj [("bookmark", VObj <$> bookmark); ("success", Some (VBool true))]))
  end.

Definition updateFlagged (ev : RequestEvent) : M Ext Val :=
  match owner_of ev with
  | None => ret unauthorized
  | Some owner =>
      if negb (truthy_val (VNum owner)) then ret unauthorized else
      data <- lift (formData (request ev)) ;;
      let id := parseInt (get "id" data) (Some 10) in
      let flagged := toggle ev (get "flagged" data) in
      update bookmarkSchema (obj [("flagged", Some flagged)])
        (IdEq (Some (num_val id))) ;;
      ret succeeded
  end.

Definition updateImportance (ev : RequestEvent) : M Ext Val :=
  match owner_of ev with
  | None => ret unauthorized
  | Some owner =>
      if negb (truthy_val (VNum owner)) then ret unauthorized else
      data <- lift (formData (request ev)) ;;
      let id := parseInt (get "id" data) (Some 10) in
      let importance := parseInt (Some (or_else (get "importance" data) "0")) None in
      update bookmarkSchema (obj [("importance", Some (num_val importance))])
        (IdEq (Some (num_val id))) ;;
      ret succeeded
  end.

Definition updateRead (ev : RequestEvent) : M Ext Val :=
  match owner_of ev with
  | None => ret unauthorized
  | Some owner =>
      if negb (truthy_val (VNum owner)) then ret unauthorized else
      data <- lift (formData (request ev)) ;;
      let id := parseInt (get "id" data) (Some 10) in
      let read := toggle ev (get "read" data) in
      update bookmarkSchema (obj [("read", Some read)])
        (IdEq (Some (num_val id))) ;;
      ret succeeded
  end.

(** [opened_times ?? 0 + 1]: the sum binds tighter than [??], so the
    right operand of [??] is [0 + 1]. *)
Definition opened_count (opened_times : option Val) : Val :=
  nullish opened_times (VNum (0 + 1)).

Definition updateIncreasedOpenedCount (ev : RequestEvent) : M Ext Val :=
  match owner_of ev with
  | None => ret unauthorized
  | Some owner =>
      if negb (truthy_val (VNum owner)) then ret unauthorized else
      data <- lift (formData (request ev)) ;;
      let id := parseInt (get "id" data) (Some 10) in
      selected <- select bookmarkSchema [("opened_times", "openedTimes")]
                    (IdEq (Some (num_val id))) ;;
      opened_times <- member (head selected) "opened_times" ;;
      update bookmarkSchema
        (obj [("openedTimes", Some (opened_count opened_times));
              ("openedLast", Some (VDate (now ev)))])
        NoFilter ;;
      ret succeeded
  end.

Definition addNewCategory (ev : RequestEvent) : M Ext Val :=
  match owner_of ev with
  | None => ret unauthorized
  | Some owner =>
      if negb (truthy_val (VNum owner)) then ret unauthorized else
      data <- lift (formData (request ev)) ;;
      let name := get "name" data in
      let description := get "description" data in
      let icon := get "icon" data in
      let color := get "color" data in
      parent <- lift (JSON_parse env (str_val (get "parent" data))) ;;
      let parentValue := value_or_self parent in
      let archived := toggle ev (get "archived" data) in
      let setPublic := toggle ev (get "public" data) in
      slug <- lift (createSlug env name) ;;
      let requestBody := obj
        [("name", Some (str_val name));
         ("slug", Some (VStr slug));
         ("description", Some (str_val description));
         ("icon", Some (str_val icon));
         ("color", Some (str_val color));
         ("parent", Some (null_string_to_null parentValue));
         ("archived", Some archived);
         ("public", Some setPublic);
         ("owner", Some (VNum owner));
         ("initial", Some (VBool false));
         ("created", Some (VDate (now ev)));
         ("updated", Some (VDate (now ev)))] in
      inserted <- insert categorySchema requestBody ;;
      id <- member (head inserted) "id" ;;
      ret (VObj (obj [("id", id); ("success", Some (VBool true))]))
  end.

Definition updateCategory (ev : RequestEvent) : M Ext Val :=
  match owner_of ev with
  | None => ret unauthorized
  | Some owner =>
      if negb (truthy_val (VNum owner)) then ret unauthorized else
      data <- lift (formData (request ev)) ;;
      let id := parseInt (get "id" data) (Some 10) in
      let name := get "name" data in
      let description := get "description" data in
      let icon := get "icon" data in
      let color := get "color" data in
      parent <- lift (JSON_parse env (str_val (get "parent" data))) ;;
      let parentValue := value_or_self parent in
      let archived := toggle ev (get "archived" data) in
      let setPublic := toggle ev (get "public" data) in
      slug <- lift (createSlug env name) ;;
      let requestBody := obj
        [("name", Some (str_val name));
         ("slug", Some (VStr slug));
         ("description", Some (str_val description));
         ("icon", Some (str_val icon));
         ("color", Some (str_val color));
         ("parent", Some (null_string_to_null parentValue));
         ("archived", Some archived);
         ("public", Some setPublic);
         ("updated", Some (VDate (now ev)))] in
      update categorySchema requestBody (IdEq (Some (num_val id))) ;;
      ret succeeded
  end.

Definition deleteCategory (ev : RequestEvent) : M Ext Val :=
  match owner_of ev with
  | None => ret failure
  | Some owner =>
      if negb (truthy_val (VNum owner)) then ret failure else
      data <- lift (formData (request ev)) ;;
      let id := parseInt (get "id" data) (Some 10) in
      delete_from categorySchema (IdEq (Some (num_val id))) ;;
      ret succeeded
  end.

(** The settings object written by [changeTheme]:
    [{ ...parsed, theme }]. *)
Definition merged_settings (parsed theme : Val) : Obj :=
  <["theme" := theme]> (spread parsed).

Definition changeTheme (ev : RequestEvent) : M Ext Val :=
  match owner_of ev with
  | None => ret failure
  | Some owner =>
      if negb (truthy_val (VNum owner)) then ret failure else
      data <- lift (formData (request ev)) ;;
      let theme := get "theme" data in
      existingSettings <- select userSchema [("settings", "settings")]
                            (IdEq (Some (VNum owner))) ;;
      try_catch
        (settings <- member (head existingSettings) "settings" ;;
         parsed <- lift (JSON_parse_opt settings) ;;
         update userSchema
           (obj [("settings", Some (VObj (merged_settings parsed (str_val theme))))])
           (IdEq (Some (VNum owner))) ;;
         ret succeeded)
        (fun _ => ret failure)
  end.

(** The [actions] object. *)
Inductive ActionName : Type :=
| AddNewBookmark | DeleteBookmark | UpdateBookmark | UpdateFlagged
| UpdateImportance | UpdateRead | UpdateIncreasedOpenedCount
| AddNewCategory | UpdateCategory | DeleteCategory | ChangeTheme.

Definition actions (a : ActionName) : RequestEvent -> M Ext Val :=
  match a with
  | AddNewBookmark => addNewBookmark
  | DeleteBookmark => deleteBookmark
  | UpdateBookmark => updateBookmark
  | UpdateFlagged => updateFlagged
  | UpdateImportance => updateImportance
  | UpdateRead => updateRead
  | UpdateIncreasedOpenedCount => updateIncreasedOpenedCount
  | AddNewCategory => addNewCategory
  | UpdateCategory => updateCategory
  | DeleteCategory => deleteCategory
  | ChangeTheme => changeTheme
  end.

End Statements.

(** ** A concrete environment

    Used to run the handlers on explicit requests.  The external state is
    the counter of stored files; tags are given by their identifiers. *)
Module Demo.

Definition same_pair (values r : Obj) : bool :=
  match values !! "bookmarkId", values !! "tagId", r !! "bookmarkId", r !! "tagId" with
  | Some (VNum b), Some (VNum t), Some (VNum b'), Some (VNum t') => (b =? b') && (t =? t')
  | _, _, _, _ => false
  end.

(** The join table has the composite key (bookmarkId, tagId). *)
Definition composite_key (s : Stmt) (d : DB) : option Thrown :=
  match s with
  | Insert bookmarksToTagsSchema values =>
      if existsb (same_pair values) (bookmarksToTags d)
      then Some (Raised "UNIQUE constraint failed")
      else None
  | _ => None
  end.

Definition parse (x : Val) : Outcome Val :=
  match x with
  | VNull => Return VNull
  | VObj m => Return (VObj m)
  | VStr "null" => Return VNull
  | VStr "[]" => Return (VArr [])
  | VStr "[7,8]" => Return (VArr [VNum 7; VNum 8])
  | VStr "[7,7]" => Return (VArr [VNum 7; VNum 7])
  | VStr "[9]" => Return (VArr [VNum 9])
  | VStr s =>
      match parseInt (Some s) (Some 10) with
      | Some n => Return (VNum n)
      | None => Throw (Raised "SyntaxError")
      end
  | _ => Throw (Raised "SyntaxError")
  end.

Definition tag_ids (tags : Val) : list Z :=
  match tags with
  | VArr xs => omap (fun x => match x with VNum n => Some n | _ => None end) xs
  | _ => []
  end.

(** The error helper reports what it was given. *)
Definition report (x : Thrown + Val) : Val :=
  match x with
  | inl (TypeError msg) =>
      VObj (obj [("success", Some (VBool false)); ("error", Some (VStr msg))])
  | inl (Raised tag) =>
      VObj (obj [("success", Some (VBool false)); ("error", Some (VStr tag))])
  | inr _ => VObj (obj [("success", Some (VBool false))])
  end.

Definition env : Env Z :=
  {| JSON_parse := parse;
     prepareTags := fun tags _ files => (files, Return (tag_ids tags));
     checkIfImageURL := fun u => String.eqb (after_last_dot u) "png";
     createSlug := fun title => Return (default "" title);
     fetch := fun _ files => (files, Return "bytes");
     storeFile := fun _ _ _ files => (files + 1, Return files);
     handlePBError := report;
     dbFault := composite_key;
     tableDefaults := fun _ => ∅ |}.

Definition bookmark_row (id owner : Z) (openedTimes : Val) : Obj :=
  obj [("id", Some (VNum id)); ("ownerId", Some (VNum owner));
       ("openedTimes", Some openedTimes)]
  ∪ null_row bookmarkSchema.

Definition join_row (bookmarkId tagId : Z) : Obj :=
  obj [("bookmarkId", Some (VNum bookmarkId)); ("tagId", Some (VNum tagId))].

Definition category_row (id owner : Z) (initial : bool) : Obj :=
  obj [("id", Some (VNum id)); ("owner", Some (VNum owner));
       ("initial", Some (VBool initial)); ("name", Some (VStr "inbox"))]
  ∪ null_row categorySchema.

Definition user_row (id : Z) (settings : Val) : Obj :=
  obj [("id", Some (VNum id)); ("settings", Some settings)].

Definition store : DB :=
  {| bookmarks := [bookmark_row 1 1 (VNum 5); bookmark_row 2 2 (VNum 0)];
     bookmarksToTags := [join_row 1 7];
     categories := [category_row 1 2 true];
     users := [user_row 1 (VObj (obj [("theme", Some (VStr "light"));
                                      ("lang", Some (VStr "en"))]))];
     bookmarkSeq := 3;
     categorySeq := 2 |}.

Definition world : World Z := mkWorld store 1 [].

Definition event (owner : option Z) (data : FormData) : RequestEvent :=
  {| locals := mkLocals (User.mk <$> owner);
     request := mkRequest (Return data);
     now := 1000 |}.

(** Bookmark 1 has been opened 5 times, bookmark 2 never; user 1 opens
    bookmark 1. *)
Definition open_first : RequestEvent := event (Some 1) [("id", "1")].

(** User 1 saves a bookmark with the tags 7 and 8; the next bookmark id
    is 3.  The main image URL is not an image URL. *)
Definition save_with_two_tags : RequestEvent :=
  event (Some 1)
    [("url", "http://x"); ("tags", "[7,8]"); ("category", "4");
     ("main_image_url", "http://x/a.txt")].

(** User 1 saves a bookmark whose tag list names tag 7 twice: the second
    join insert violates the composite key. *)
Definition save_with_repeated_tag : RequestEvent :=
  event (Some 1) [("url", "http://x"); ("tags", "[7,7]"); ("category", "4")].

(** User 1 has the settings [{ theme: light, lang: en }] and picks the
    dark theme. *)
Definition pick_dark : RequestEvent := event (Some 1) [("theme", "dark")].

Definition light_settings : Val :=
  VObj (obj [("theme", Some (VStr "light")); ("lang", Some (VStr "en"))]).

(** The same environment with a driver that rejects every update of a
    bookmark. *)
Definition busy_env : Env Z :=
  {| JSON_parse := JSON_parse env;
     prepareTags := prepareTags env;
     checkIfImageURL := checkIfImageURL env;
     createSlug := createSlug env;
     fetch := fetch env;
     storeFile := storeFile env;
     handlePBError := handlePBError env;
     dbFault := fun s d =>
       match s with
       | Update bookmarkSchema _ _ => Some (Raised "SQLITE_BUSY")
       | _ => dbFault env s d
       end;
     tableDefaults := tableDefaults env |}.

(** User 1 flags bookmark 2, which belongs to user 2. *)
Definition flag_second : RequestEvent :=
  event (Some 1) [("id", "2"); ("flagged", "on")].

(** User 1 rates bookmark 2 without sending an importance. *)
Definition rate_second : RequestEvent := event (Some 1) [("id", "2")].

(** User 1 marks bookmark 2 as read. *)
Definition read_second : RequestEvent :=
  event (Some 1) [("id", "2"); ("read", "on")].

(** User 1 rates bookmark 2 with a word. *)
Definition rate_with_a_word : RequestEvent :=
  event (Some 1) [("id", "2"); ("importance", "abc")].

(** A request whose id is not a number. *)
Definition without_id : RequestEvent := event (Some 1) [("id", "abc")].

(** User 1 opens bookmark 9, which does not exist. *)
Definition open_missing : RequestEvent := event (Some 1) [("id", "9")].

(** User 1 edits bookmark 2, which belongs to user 2, and sends the owner
    and category under the names of the form. *)
Definition edit_second : RequestEvent :=
  event (Some 1) [("id", "2"); ("title", "new"); ("category", "4"); ("tags", "[9]")].

(** User 1 edits bookmark 2 and sends the tags 7 and 8. *)
Definition edit_second_two_tags : RequestEvent :=
  event (Some 1) [("id", "2"); ("title", "new"); ("category", "4"); ("tags", "[7,8]")].


(** A category that is no JSON text. *)
Definition edit_with_bad_category : RequestEvent :=
  event (Some 1) [("id", "1"); ("category", "oops")].

(** User 1 creates the category [news] under no parent. *)
Definition create_category : RequestEvent :=
  event (Some 1) [("name", "news"); ("parent", "null")].

(** User 1 renames category 1, which belongs to user 2. *)
Definition rename_category : RequestEvent :=
  event (Some 1) [("id", "1"); ("name", "later"); ("parent", "null")].

(** User 1 saves a bookmark with the tags 7 and 8 and an image URL. *)
Definition save_with_image : RequestEvent :=
  event (Some 1)
    [("url", "http://x"); ("title", "x"); ("tags", "[7,8]"); ("category", "4");
     ("main_image_url", "http://x/a.png")].

(** The same environment without a network: every fetch fails. *)
Definition offline_env : Env Z :=
  {| JSON_parse := JSON_parse env;
     prepareTags := prepareTags env;
     checkIfImageURL := checkIfImageURL env;
     createSlug := createSlug env;
     fetch := fun _ files => (files, Throw (Raised "fetch failed"));
     storeFile := storeFile env;
     handlePBError := handlePBError env;
     dbFault := dbFault env;
     tableDefaults := tableDefaults env |}.

(** The same environment with a driver that enforces the foreign key of
    the join table on the tags, of which only tag 7 is stored. *)
Definition known_tags_env : Env Z :=
  {| JSON_parse := JSON_parse env;
     prepareTags := prepareTags env;
     checkIfImageURL := checkIfImageURL env;
     createSlug := createSlug env;
     fetch := fetch env;
     storeFile := storeFile env;
     handlePBError := handlePBError env;
     dbFault := fun s d =>
       match s with
       | Insert bookmarksToTagsSchema values =>
           match values !! "tagId" with
           | Some (VNum 7) => dbFault env s d
           | _ => Some (Raised "SQLITE_CONSTRAINT_FOREIGNKEY")
           end
       | _ => dbFault env s d
       end;
     tableDefaults := tableDefaults env |}.

(** A database whose next bookmark id is 0. *)
Definition zero_world : World Z :=
  mkWorld {| bookmarks := []; bookmarksToTags := []; categories := [];
             users := []; bookmarkSeq := 0; categorySeq := 1 |} 1 [].

End Demo.

(** * Vocabulary of the properties *)

Section Vocabulary.
Context {Ext : Type}.
Implicit Types w : World Ext.

(** [keeps R P m]: running [m] relates the world before to the world
    after by [R], whatever the outcome, and a returned value satisfies
    [P]. *)
Definition keeps {A} (R : World Ext -> World Ext -> Prop) (P : A -> Prop)
    (m : M Ext A) : Prop :=
  forall w, R w (fst (m w)) /\ forall a, snd (m w) = Return a -> P a.

Definition any {A} : A -> Prop := fun _ => True.

(** [wp m Q w]: running [m] from [w] ends in a world and an outcome that
    satisfy [Q]. *)
Definition wp {A} (m : M Ext A) (Q : World Ext -> Outcome A -> Prop) w : Prop :=
  Q (fst (m w)) (snd (m w)).

(** The world once a statement has been handed to the driver. *)
Definition logged w (s : Stmt) : World Ext :=
  mkWorld (db w) (ext w) (log w ++ [s]).

(** The world once the driver has executed it. *)
Definition logged_with w (s : Stmt) (d : DB) : World Ext :=
  mkWorld d (ext w) (log w ++ [s]).

(** [extends P I] relates two worlds when the later log is the earlier
    one followed by statements that all satisfy [P], and the tables are
    related by [I]. *)
Definition extends (P : Stmt -> Prop) (I : DB -> DB -> Prop) w w' : Prop :=
  (exists l : list Stmt, log w' = (log w ++ l)%list /\ Forall P l)
  /\ I (db w) (db w').

(** The test of [storeImage]: [url && checkIfImageURL(url)]. *)
Definition archivable (env : Env Ext) (url : option string) : bool :=
  match url with
  | Some u => truthy_str url && checkIfImageURL env u
  | None => false
  end.

End Vocabulary.

(** The statements of [updateIncreasedOpenedCount]. *)
Definition opened_select (data : FormData) : Stmt :=
  Select bookmarkSchema [("opened_times", "openedTimes")]
    (IdEq (Some (num_val (parseInt (get "id" data) (Some 10))))).

Definition opened_set (ev : RequestEvent) (written : Val) : Obj :=
  obj [("openedTimes", Some written); ("openedLast", Some (VDate (now ev)))].

(** The first row the select finds. *)
Definition identified (data : FormData) (d : DB) : option Obj :=
  head (filter
          (fun r => matches (IdEq (Some (num_val (parseInt (get "id" data) (Some 10))))) r
                    = true)
          (bookmarks d)).

(** The stored counter of a row, as the select reads it. *)
Definition stored_count (r : Obj) : Val := default VNull (r !! "openedTimes").

(** The statements of [changeTheme]. *)
Definition settings_select (owner : Z) : Stmt :=
  Select userSchema [("settings", "settings")] (IdEq (Some (VNum owner))).

Definition settings_update (owner : Z) (written : Obj) : Stmt :=
  Update userSchema (obj [("settings", Some (VObj written))])
    (IdEq (Some (VNum owner))).

(** The settings cell of the caller's row, as the select reads it. *)
Definition stored_settings (owner : Z) (d : DB) : option Val :=
  (fun r : Obj => default VNull (r !! "settings"))
    <$> head (filter (fun r => matches (IdEq (Some (VNum owner))) r = true) (users d)).

(** The identity, owner and initial flag of a category row. *)
Definition category_key (c : Obj) : option Val * option Val * option Val :=
  (c !! "id", c !! "owner", c !! "initial").

Definition same_category_keys (d d' : DB) : Prop :=
  category_key <$> categories d' = category_key <$> categories d.

(** A statement that writes neither [owner] nor [initial] of a category and
    neither adds nor removes a category. *)
Definition leaves_owner_and_initial (s : Stmt) : Prop :=
  match s with
  | Update categorySchema set _ => set !! "owner" = None /\ set !! "initial" = None
  | Insert categorySchema _ => False
  | Delete categorySchema _ => False
  | _ => True
  end.

Definition never_deletes (s : Stmt) : Prop :=
  match s with
  | Delete _ _ => False
  | _ => True
  end.

Definition is_not_update (s : Stmt) : Prop :=
  match s with
  | Update _ _ _ => False
  | _ => True
  end.

(** The join table after is the join table before, followed by new rows. *)
Definition join_grows (d d' : DB) : Prop :=
  exists added : list Obj, bookmarksToTags d' = (bookmarksToTags d ++ added)%list.

(** What the steps after the join inserts leave alone: the join table and
    the ids of the bookmark rows. *)
Definition same_joins_and_ids (d d' : DB) : Prop :=
  bookmarksToTags d' = bookmarksToTags d
  /\ (fun r : Obj => r !! "id") <$> bookmarks d'
     = (fun r : Obj => r !! "id") <$> bookmarks d.

(** The [mainImageId] cells of the bookmark table, row by row. *)
Definition main_image_cells (d : DB) : list (option Val) :=
  (fun r : Obj => r !! "mainImageId") <$> bookmarks d.

(** The table has kept the main image reference of every row, and the rows
    added to it have a null one. *)
Definition adds_null_main_images (d d' : DB) : Prop :=
  exists news : list (option Val),
    main_image_cells d' = (main_image_cells d ++ news)%list
    /\ Forall (eq (Some VNull)) news.

(** No constraint on the tables. *)
Definition unrelated (d d' : DB) : Prop := True.

(** ** Vocabulary of the further properties *)

(** A row after an update that assigns the one column [k]: the cell is
    replaced in the rows the filter selects. *)
Definition set_cell (k : string) (v : Val) (f : Filter) (r : Obj) : Obj :=
  if matches f r then <[k := v]> r else r.

(** The filter [eq(table.id, parseInt(data.get('id'), 10))]. *)
Definition by_form_id (data : FormData) : Filter :=
  IdEq (Some (num_val (parseInt (get "id" data) (Some 10)))).

(** The importance read from the form. *)
Definition form_importance (data : FormData) : Val :=
  num_val (parseInt (Some (or_else (get "importance" data) "0")) None).

(** The identity, owner and category of a bookmark row. *)
Definition bookmark_key (r : Obj) : option Val * option Val * option Val :=
  (r !! "id", r !! "ownerId", r !! "categoryId").

(** No bookmark row is added or removed, and each keeps its identity, owner
    and category; the other tables are as before but for added join rows. *)
Definition same_bookmark_keys (d d' : DB) : Prop :=
  bookmark_key <$> bookmarks d' = bookmark_key <$> bookmarks d
  /\ categories d' = categories d
  /\ users d' = users d.

(** The [ownerId] cells of the bookmark table, row by row. *)
Definition owner_cells (d : DB) : list (option Val) :=
  (fun r : Obj => r !! "ownerId") <$> bookmarks d.

(** The bookmark table has kept the owner of every row, and the rows added
    to it belong to [owner]. *)
Definition adds_rows_of (owner : Z) (d d' : DB) : Prop :=
  exists news : list (option Val),
    owner_cells d' = (owner_cells d ++ news)%list
    /\ Forall (eq (Some (VNum owner))) news.

(** The steps of [addNewBookmark] that follow the join inserts: archive the
    two images, patch the bookmark when one was archived, and return the
    bookmark as it was inserted. *)
Definition finish_bookmark {Ext : Type} (env : Env Ext) (data : FormData)
    (owner : Z) (bookmark : Obj) : M Ext Val :=
  (mainImageId <- storeImage env (get "main_image_url" data) (get "title" data) owner ;;
   iconId <- storeImage env (get "icon_url" data) (get "title" data) owner ;;
   (if truthy_num mainImageId || truthy_num iconId
    then update env bookmarkSchema (image_set mainImageId iconId)
           (IdEq (bookmark !! "id")) ;;
         ret tt
    else ret tt) ;;
   ret (VObj (obj [("bookmark", Some (VObj bookmark));
                   ("success", Some (VBool true))])))%action.

(** [bookmarkData], the values [addNewBookmark] inserts. *)
Definition bookmark_values (ev : RequestEvent) (owner : Z) (data : FormData)
    (category : Val) : Obj :=
  obj [("ownerId", Some (VNum owner));
       ("url", Some (str_val (get "url" data)));
       ("author", Some (str_val (get "author" data)));
       ("categoryId", Some (value_or_self category));
       ("title", Some (str_val (get "title" data)));
       ("contentHtml", Some (str_val (get "content_html" data)));
       ("contentPublishedDate", Some (str_val (get "content_published_date" data)));
       ("contentText", Some (str_val (get "content_text" data)));
       ("contentType", Some (str_val (get "content_type" data)));
       ("description", Some (str_val (get "description" data)));
       ("domain", Some (str_val (get "domain" data)));
       ("flagged", Some (toggle ev (get "flagged" data)));
       ("iconUrl", Some (str_val (get "icon_url" data)));
       ("importance", Some (form_importance data));
       ("mainImageUrl", Some (str_val (get "main_image_url" data)));
       ("note", Some (str_val (get "note" data)))].

(** [bookmarkData], the assignment of [updateBookmark]. *)
Definition bookmark_set (ev : RequestEvent) (owner : Z) (data : FormData)
    (category : Val) (tagIds : list Z) : Obj :=
  obj [("author", Some (str_val (get "author" data)));
       ("category", Some (value_or_self category));
       ("tags", Some (VArr (VNum <$> tagIds)));
       ("contentHtml", Some (str_val (get "content_html" data)));
       ("contentPublishedDate", Some (str_val (get "content_published_date" data)));
       ("contentText", Some (str_val (get "content_text" data)));
       ("contentType", Some (str_val (get "content_type" data)));
       ("description", Some (str_val (get "description" data)));
       ("domain", Some (str_val (get "domain" data)));
       ("flagged", Some (toggle ev (get "flagged" data)));
       ("iconUrl", Some (str_val (get "icon_url" data)));
       ("importance", Some (form_importance data));
       ("mainImageUrl", Some (str_val (get "main_image_url" data)));
       ("note", Some (str_val (get "note" data)));
       ("owner", Some (VNum owner));
       ("title", Some (str_val (get "title" data)));
       ("url", Some (str_val (get "url" data)))].

(** [requestBody], the values [addNewCategory] inserts. *)
Definition category_values (ev : RequestEvent) (owner : Z) (data : FormData)
    (parent : Val) (slug : string) : Obj :=
  obj [("name", Some (str_val (get "name" data)));
       ("slug", Some (VStr slug));
       ("description", Some (str_val (get "description" data)));
       ("icon", Some (str_val (get "icon" data)));
       ("color", Some (str_val (get "color" data)));
       ("parent", Some (null_string_to_null (value_or_self parent)));
       ("archived", Some (toggle ev (get "archived" data)));
       ("public", Some (toggle ev (get "public" data)));
       ("owner", Some (VNum owner));
       ("initial", Some (VBool false));
       ("created", Some (VDate (now ev)));
       ("updated", Some (VDate (now ev)))].

(** [requestBody], the assignment of [updateCategory]. *)
Definition category_set (ev : RequestEvent) (data : FormData) (parent : Val)
    (slug : string) : Obj :=
  obj [("name", Some (str_val (get "name" data)));
       ("slug", Some (VStr slug));
       ("description", Some (str_val (get "description" data)));
       ("icon", Some (str_val (get "icon" data)));
       ("color", Some (str_val (get "color" data)));
       ("parent", Some (null_string_to_null (value_or_self parent)));
       ("archived", Some (toggle ev (get "archived" data)));
       ("public", Some (toggle ev (get "public" data)));
       ("updated", Some (VDate (now ev)))].

(** The join inserts of a bookmark, one per tag id, in the order of the
    tag ids. *)
Definition join_inserts (bookmarkId : option Val) (tagIds : list Z) : list Stmt :=
  (fun tagId => Insert bookmarksToTagsSchema (join_values bookmarkId tagId))
    <$> tagIds.

(** The tables once the driver has executed a statement. *)
Definition executed {Ext : Type} (env : Env Ext) (s : Stmt) (d : DB) : DB :=
  match s with
  | Insert t values => apply_insert (tableDefaults env t) t values d
  | Update t set f => apply_update t set f d
  | Delete t f => apply_delete t f d
  | Select _ _ _ => d
  end.

(** The tables once the driver has executed the statements of [l] in turn. *)
Definition run_all {Ext : Type} (env : Env Ext) (l : list Stmt) (d : DB) : DB :=
  fold_left (fun d s => executed env s d) l d.

(** The driver executes the statements of [l] in turn, from the tables [d]:
    it rejects none of them in the state in which it receives it. *)
Fixpoint executes {Ext : Type} (env : Env Ext) (l : list Stmt) (d : DB) : Prop :=
  match l with
  | [] => True
  | s :: rest => dbFault env s d = None /\ executes env rest (executed env s d)
  end.

(** The first error with which the driver rejects a statement of [l], the
    statements before it being executed. *)
Fixpoint first_rejection {Ext : Type} (env : Env Ext) (l : list Stmt) (d : DB)
    : option Thrown :=
  match l with
  | [] => None
  | s :: rest =>
      match dbFault env s d with
      | Some e => Some e
      | None => first_rejection env rest (executed env s d)
      end
  end.

(** The bookmark table is as before. *)
Definition same_bookmarks (d d' : DB) : Prop := bookmarks d' = bookmarks d.

(** * Properties *)

(** ** Objects and rows *)

Lemma lookup_pick (ks : list string) (o : Obj) (k : string) :
  (list_to_map (omap (fun k => pair k <$> o !! k) ks) : Obj) !! k
  = if decide (k ∈ ks) then o !! k else None.
Proof.
  induction ks as [|a ks IH].
  - change (omap _ []) with (@nil (string * Val)).
    change (list_to_map []) with (∅ : Obj).
    rewrite lookup_empty. destruct (decide (k ∈ [])) as [H|]; [|done].
    by apply elem_of_nil in H.
  - change (omap ?f (a :: ks)) with
      (match f a with Some y => y :: omap f ks | None => omap f ks end).
    destruct (decide (k ∈ a :: ks)) as [Hin|Hin].
    + apply elem_of_cons in Hin.
      destruct (decide (k = a)) as [->|Hne].
      * destruct (o !! a) as [v|] eqn:Ha; simpl.
        -- by rewrite lookup_insert_eq.
        -- rewrite IH. by destruct (decide (a ∈ ks)).
      * destruct Hin as [?|Hin]; [done|].
        destruct (o !! a) as [v|] eqn:Ha; simpl.
        -- rewrite lookup_insert_ne by done. rewrite IH. by rewrite decide_True.
        -- rewrite IH. by rewrite decide_True.
    + apply not_elem_of_cons in Hin as [Hne Hin].
      destruct (o !! a) as [v|] eqn:Ha; simpl.
      * rewrite lookup_insert_ne by done. rewrite IH. by rewrite decide_False.
      * rewrite IH. by rewrite decide_False.
Qed.

Lemma lookup_restrict (t : Table) (o : Obj) (k : string) :
  restrict t o !! k = if decide (k ∈ columns t) then o !! k else None.
Proof. apply lookup_pick. Qed.

Lemma lookup_restrict_absent (t : Table) (o : Obj) (k : string) :
  o !! k = None -> restrict t o !! k = None.
Proof. intros H. rewrite lookup_restrict, H. by case_decide. Qed.

Lemma lookup_bind_values (t : Table) (o : Obj) (k : string) :
  bind_values t o !! k = if decide (k ∈ columns t) then bound <$> o !! k else None.
Proof. unfold bind_values. by rewrite lookup_restrict, lookup_fmap. Qed.

Lemma lookup_bind_values_absent (t : Table) (o : Obj) (k : string) :
  o !! k = None -> bind_values t o !! k = None.
Proof. intros H. rewrite lookup_bind_values, H. by case_decide. Qed.

(** A row keeps every cell that an update's assignment does not name. *)
Lemma patch_row_other (t : Table) (set : Obj) (w : Filter) (r : Obj) (k : string) :
  set !! k = None -> patch_row t set w r !! k = r !! k.
Proof.
  intros H. unfold patch_row. destruct (matches w r); [|done].
  rewrite lookup_union, (lookup_bind_values_absent _ _ _ H).
  by destruct (r !! k).
Qed.

(** A row that matches takes every cell the assignment names, when the
    name is a column. *)
Lemma patch_row_set (t : Table) (set : Obj) (w : Filter) (r : Obj) (k : string) (v : Val) :
  matches w r = true -> k ∈ columns t -> set !! k = Some v ->
  patch_row t set w r !! k = Some (bound v).
Proof.
  intros Hm Hk H. unfold patch_row. rewrite Hm.
  rewrite lookup_union, lookup_bind_values, decide_True, H by done.
  simpl. by destruct (r !! k).
Qed.

Lemma rows_set_rows (t : Table) (rs : list Obj) (d : DB) :
  rows t (set_rows t rs d) = rs.
Proof. by destruct t. Qed.

Lemma rows_set_rows_ne (t u : Table) (rs : list Obj) (d : DB) :
  t <> u -> rows u (set_rows t rs d) = rows u d.
Proof. by destruct t, u. Qed.

Lemma rows_bump_seq (t u : Table) (d : DB) : rows u (bump_seq t d) = rows u d.
Proof. by destruct t, u. Qed.

(** ** Running the monad *)

Section Running.
Context {Ext : Type}.
Implicit Types w : World Ext.

Lemma run_bind {A B} (m : M Ext A) (k : A -> M Ext B) w w' a :
  m w = (w', Return a) -> bind m k w = k a w'.
Proof. intros H. unfold bind. by rewrite H. Qed.

Lemma run_bind_throw {A B} (m : M Ext A) (k : A -> M Ext B) w w' e :
  m w = (w', Throw e) -> bind m k w = (w', Throw e).
Proof. intros H. unfold bind. by rewrite H. Qed.

Context (R : World Ext -> World Ext -> Prop) `{!PreOrder R}.

Lemma keeps_ret {A} (P : A -> Prop) a : P a -> keeps R P (ret a).
Proof. intros H w. split; [reflexivity|]. simpl. intros ? ?. by simplify_eq. Qed.

Lemma keeps_throw {A} (P : A -> Prop) e : keeps R P (throw e).
Proof. intros w. split; [reflexivity|]. simpl. intros ? ?. by simplify_eq. Qed.

Lemma keeps_lift {A} (o : Outcome A) : keeps R any (lift o).
Proof. intros w. split; [reflexivity|done]. Qed.

Lemma keeps_weaken {A} (P P' : A -> Prop) m :
  keeps R P m -> (forall a, P a -> P' a) -> keeps R P' m.
Proof. intros H HP w. destruct (H w) as [H1 H2]. split; [done|]. eauto. Qed.

Lemma keeps_bind {A B} (P : A -> Prop) (P' : B -> Prop) m (k : A -> M Ext B) :
  keeps R P m -> (forall a, P a -> keeps R P' (k a)) -> keeps R P' (bind m k).
Proof.
  intros Hm Hk w. destruct (Hm w) as [H1 H2]. unfold bind.
  destruct (m w) as [w' [a|e]]; simpl in *.
  - destruct (Hk a (H2 a eq_refl) w') as [H3 H4]. split; [|done].
    by etransitivity.
  - split; [done|]. intros ? ?. by simplify_eq.
Qed.

Lemma keeps_try_catch {A} (P : A -> Prop) m (h : Thrown -> M Ext A) :
  keeps R P m -> (forall e, keeps R P (h e)) -> keeps R P (try_catch m h).
Proof.
  intros Hm Hh w. destruct (Hm w) as [H1 H2]. unfold try_catch.
  destruct (m w) as [w' [a|e]]; simpl in *.
  - split; [done|]. intros ? ?. simplify_eq. by apply H2.
  - destruct (Hh e w') as [H3 H4]. split; [|done]. by etransitivity.
Qed.

Lemma keeps_if {A} (P : A -> Prop) (b : bool) (m1 m2 : M Ext A) :
  keeps R P m1 -> keeps R P m2 -> keeps R P (if b then m1 else m2).
Proof. by destruct b. Qed.

Lemma keeps_member (x : option Obj) k : keeps R any (member x k).
Proof. destruct x; [by apply keeps_ret|apply keeps_throw]. Qed.

Lemma keeps_map_sync {A B} (P : B -> Prop) (f : A -> M Ext B) xs :
  (forall x, keeps R P (f x)) -> keeps R (Forall P) (map_sync f xs).
Proof.
  intros Hf. induction xs as [|x xs IH]; simpl.
  - by apply keeps_ret.
  - eapply keeps_bind; [apply Hf|]. intros y Hy.
    eapply keeps_bind; [apply IH|]. intros ys Hys.
    apply keeps_ret. by constructor.
Qed.

Lemma keeps_promise_all {A} (ps : list (M Ext A)) :
  Forall (keeps R any) ps -> keeps R any (promise_all ps).
Proof.
  induction 1 as [|p ps Hp _ IH]; simpl.
  - by apply keeps_ret.
  - intros w. destruct (Hp w) as [H1 _].
    destruct (p w) as [w1 [a|e]]; simpl in *.
    + destruct (IH w1) as [H2 _].
      destruct (promise_all ps w1) as [w2 [others|e]]; simpl in *;
        (split; [by etransitivity|done]).
    + destruct (IH w1) as [H2 _]. split; [by etransitivity|done].
Qed.

End Running.

(** ** What a statement does *)

Section Driver.
Context {Ext : Type} (env : Env Ext).
Implicit Types w : World Ext.

Lemma run_insert t values w :
  insert env t values w
  = match dbFault env (Insert t values) (db w) with
    | Some e => (logged w (Insert t values), Throw e)
    | None =>
        (logged_with w (Insert t values)
           (apply_insert (tableDefaults env t) t values (db w)),
         Return [new_row (tableDefaults env t) t values (db w)])
    end.
Proof.
  unfold insert, bind, issue, read_db, write_db, ret.
  by destruct (dbFault env _ (db w)).
Qed.

Lemma run_update t set f w :
  update env t set f w
  = match dbFault env (Update t set f) (db w) with
    | Some e => (logged w (Update t set f), Throw e)
    | None =>
        (logged_with w (Update t set f) (apply_update t set f (db w)),
         Return (filter (fun r => matches f r = true)
                   (rows t (apply_update t set f (db w)))))
    end.
Proof.
  unfold update, bind, issue, read_db, write_db, ret.
  by destruct (dbFault env _ (db w)).
Qed.

Lemma run_delete t f w :
  delete_from env t f w
  = match dbFault env (Delete t f) (db w) with
    | Some e => (logged w (Delete t f), Throw e)
    | None => (logged_with w (Delete t f) (apply_delete t f (db w)), Return tt)
    end.
Proof.
  unfold delete_from, bind, issue, read_db, write_db, ret.
  by destruct (dbFault env _ (db w)).
Qed.

Lemma run_select_stmt t fields f w :
  select env t fields f w
  = match dbFault env (Select t fields f) (db w) with
    | Some e => (logged w (Select t fields f), Throw e)
    | None => (logged w (Select t fields f), Return (run_select t fields f (db w)))
    end.
Proof.
  unfold select, bind, issue, read_db, ret.
  by destruct (dbFault env _ (db w)).
Qed.

End Driver.

(** ** The authorization check *)

Lemma owner_accepted (owner : Z) : owner <> 0 -> negb (truthy_val (VNum owner)) = false.
Proof. intros H. simpl. destruct (Z.eqb_spec owner 0); [done|reflexivity]. Qed.

Lemma owner_rejected (o : option Z) :
  truthy_num o = false -> o = None \/ o = Some 0.
Proof.
  destruct o as [n|]; [|by left]. unfold truthy_num; simpl. intros H. right.
  destruct (Z.eqb_spec n 0); [by subst|discriminate].
Qed.

Section Denied.
Context {Ext : Type} (env : Env Ext).

(** X21.  Without an authenticated owner every action returns at once an
    object whose [success] is [false] and leaves the world as it was: the
    tables, the external state and the statement log are unchanged, so no
    select, insert, update or delete is issued. *)
Theorem unauthenticated_action_changes_nothing (a : ActionName) (ev : RequestEvent)
    (w : World Ext) :
  truthy_num (owner_of ev) = false ->
  exists r : Obj,
    actions env a ev w = (w, Return (VObj r))
    /\ r !! "success" = Some (VBool false).
Proof.
  intros H. apply owner_rejected in H.
  destruct a; simpl;
    unfold addNewBookmark, deleteBookmark, updateBookmark, updateFlagged,
      updateImportance, updateRead, updateIncreasedOpenedCount,
      addNewCategory, updateCategory, deleteCategory, changeTheme;
    destruct H as [-> | ->]; simpl;
    eexists; (split; [reflexivity|]); reflexivity.
Qed.

End Denied.

Lemma unauthenticated_action_changes_nothing_witness :
  exists r : Obj,
    actions Demo.env UpdateCategory (Demo.event None [("id", "1")]) Demo.world
    = (Demo.world, Return (VObj r))
    /\ r !! "success" = Some (VBool false).
Proof.
  apply (unauthenticated_action_changes_nothing Demo.env UpdateCategory
           (Demo.event None [("id", "1")]) Demo.world).
  reflexivity.
Defined.

(** C3.  Called without a user, [deleteCategory] and [changeTheme] answer
    [{ success: false }] with no [error] property, where [deleteBookmark]
    and the other eight handlers answer
    [{ success: false, error: 'Unauthorized' }] from the same guard.  None of
    them touches the world. *)
Lemma deleteCategory_denial_without_error :
  deleteCategory Demo.env (Demo.event None [("id", "1")]) Demo.world
  = (Demo.world, Return (VObj (obj [("success", Some (VBool false))])))
  /\ changeTheme Demo.env (Demo.event None [("theme", "dark")]) Demo.world
     = (Demo.world, Return (VObj (obj [("success", Some (VBool false))])))
  /\ obj [("success", Some (VBool false))] !! "error" = None
  /\ deleteBookmark Demo.env (Demo.event None [("id", "1")]) Demo.world
     = (Demo.world,
        Return (VObj (obj [("success", Some (VBool false));
                           ("error", Some (VStr "Unauthorized"))]))).
Proof. repeat split. Qed.

(** ** Deleting a bookmark *)

Lemma matches_id_eq (r : Obj) (n : Z) :
  matches (IdEq (Some (VNum n))) r = true <-> r !! "id" = Some (VNum n).
Proof.
  simpl. destruct (r !! "id") as [[]|]; try (split; [discriminate|congruence]).
  rewrite Z.eqb_eq. split; congruence.
Qed.

Section DeleteBookmark.
Context {Ext : Type} (env : Env Ext).

(** C10.  For an authenticated caller, once the driver has executed the
    delete, [deleteBookmark] returns [{ id, success: true }] and the
    bookmark table has lost exactly the rows whose id is the parsed one.
    Neither the statement nor the result mentions the owner of a row. *)
Theorem deleteBookmark_ignores_ownership (ev : RequestEvent) (w : World Ext)
    (owner : Z) (data : FormData) :
  owner_of ev = Some owner -> owner <> 0 ->
  formData (request ev) = Return data ->
  let id := num_val (parseInt (get "id" data) (Some 10)) in
  dbFault env (Delete bookmarkSchema (IdEq (Some id))) (db w) = None ->
  snd (deleteBookmark env ev w)
  = Return (VObj (obj [("id", Some id); ("success", Some (VBool true))]))
  /\ log (fst (deleteBookmark env ev w))
     = (log w ++ [Delete bookmarkSchema (IdEq (Some id))])%list
  /\ bookmarks (db (fst (deleteBookmark env ev w)))
     = filter (fun r => matches (IdEq (Some id)) r = false) (bookmarks (db w))
  /\ forall (n : Z) (r : Obj),
       id = VNum n ->
       (r ∈ bookmarks (db (fst (deleteBookmark env ev w)))
        <-> r ∈ bookmarks (db w) /\ r !! "id" <> Some (VNum n)).
Proof.
  intros Hown Hne Hdata id Hok. subst id.
  unfold deleteBookmark. rewrite Hown, (owner_accepted _ Hne), Hdata.
  unfold bind at 1, lift. unfold bind. rewrite run_delete, Hok. simpl.
  split; [done|]. split; [done|]. split; [done|].
  intros n r ->. rewrite list_elem_of_filter, <- matches_id_eq.
  change (matches (IdEq (Some (VNum n))) r = false ∧ r ∈ bookmarks (db w)
          ↔ r ∈ bookmarks (db w) ∧ matches (IdEq (Some (VNum n))) r ≠ true).
  destruct (matches (IdEq (Some (VNum n))) r); intuition congruence.
Qed.

End DeleteBookmark.

(** User 1 deletes bookmark 2, which belongs to user 2. *)
Lemma deleteBookmark_ignores_ownership_witness :
  Demo.bookmark_row 2 2 (VNum 0) !! "ownerId" = Some (VNum 2)
  /\ snd (deleteBookmark Demo.env (Demo.event (Some 1) [("id", "2")]) Demo.world)
     = Return (VObj (obj [("id", Some (VNum 2)); ("success", Some (VBool true))]))
  /\ bookmarks (db (fst (deleteBookmark Demo.env (Demo.event (Some 1) [("id", "2")])
                          Demo.world)))
     = filter (fun r => matches (IdEq (Some (VNum 2))) r = false)
         [Demo.bookmark_row 1 1 (VNum 5); Demo.bookmark_row 2 2 (VNum 0)].
Proof.
  split; [reflexivity|].
  destruct (deleteBookmark_ignores_ownership Demo.env
              (Demo.event (Some 1) [("id", "2")]) Demo.world 1 [("id", "2")])
    as (Hret & _ & Hrows & _);
    [reflexivity | lia | reflexivity | reflexivity |].
  split; [exact Hret | exact Hrows].
Defined.

(** ** The opened-count patch *)

Section OpenedCount.
Context {Ext : Type} (env : Env Ext).

Lemma run_opened_count (ev : RequestEvent) (w : World Ext) (owner : Z)
    (data : FormData) (r : Obj) :
  owner_of ev = Some owner -> owner <> 0 ->
  formData (request ev) = Return data ->
  dbFault env (opened_select data) (db w) = None ->
  identified data (db w) = Some r ->
  updateIncreasedOpenedCount env ev w
  = (update env bookmarkSchema
       (opened_set ev (opened_count (Some (stored_count r)))) NoFilter ;;
     ret succeeded)%action
      (logged w (opened_select data)).
Proof.
  intros Hown Hne Hdata Hsel Hrow.
  unfold updateIncreasedOpenedCount.
  rewrite Hown, (owner_accepted _ Hne), Hdata.
  unfold opened_select in Hsel. unfold identified in Hrow.
  unfold bind at 1, lift. unfold bind at 1. rewrite run_select_stmt, Hsel.
  apply head_Some in Hrow as [rest Hrow].
  unfold run_select. simpl rows. rewrite Hrow. reflexivity.
Qed.

(** [counter ?? 0 + 1] is [counter ?? (0 + 1)]: the value the update
    carries for [openedTimes] is the stored counter itself whenever that
    counter is not null, and 1 when it is null. *)
Lemma opened_count_writes_stored_value (ev : RequestEvent) (w : World Ext)
    (owner : Z) (data : FormData) (r : Obj) :
  owner_of ev = Some owner -> owner <> 0 ->
  formData (request ev) = Return data ->
  dbFault env (opened_select data) (db w) = None ->
  identified data (db w) = Some r ->
  exists written : Val,
    log (fst (updateIncreasedOpenedCount env ev w))
    = (log w ++ [opened_select data;
                 Update bookmarkSchema (opened_set ev written) NoFilter])%list
    /\ (stored_count r <> VNull -> written = stored_count r)
    /\ (stored_count r = VNull -> written = VNum 1).
Proof.
  intros Hown Hne Hdata Hsel Hrow.
  exists (opened_count (Some (stored_count r))).
  rewrite (run_opened_count ev w owner data r) by done.
  split.
  - unfold bind. rewrite run_update. simpl.
    destruct (dbFault env (Update _ _ _) _); simpl; by rewrite <- app_assoc.
  - unfold opened_count, nullish.
    split; [by destruct (stored_count r)|by intros ->].
Qed.

(** C2.  The update of [updateIncreasedOpenedCount] has no row filter:
    once executed, every row of the bookmark table carries the written
    counter, as the driver binds it, and the new [openedLast], not only the
    identified row. *)
Theorem opened_count_updates_every_row (ev : RequestEvent) (w : World Ext)
    (owner : Z) (data : FormData) (r : Obj) :
  owner_of ev = Some owner -> owner <> 0 ->
  formData (request ev) = Return data ->
  dbFault env (opened_select data) (db w) = None ->
  identified data (db w) = Some r ->
  let set := opened_set ev (opened_count (Some (stored_count r))) in
  dbFault env (Update bookmarkSchema set NoFilter) (db w) = None ->
  let w' := fst (updateIncreasedOpenedCount env ev w) in
  last (log w') = Some (Update bookmarkSchema set NoFilter)
  /\ length (bookmarks (db w')) = length (bookmarks (db w))
  /\ forall (i : nat) (r' : Obj),
       bookmarks (db w') !! i = Some r' ->
       r' !! "openedTimes" = Some (bound (opened_count (Some (stored_count r))))
       /\ r' !! "openedLast" = Some (VDate (now ev))
       /\ exists r0 : Obj,
            bookmarks (db w) !! i = Some r0 /\ r' !! "id" = r0 !! "id".
Proof.
  intros Hown Hne Hdata Hsel Hrow set Hupd w'. subst w'.
  assert (updateIncreasedOpenedCount env ev w
          = (logged_with (logged w (opened_select data))
               (Update bookmarkSchema set NoFilter)
               (apply_update bookmarkSchema set NoFilter (db w)),
             Return succeeded)) as ->.
  { rewrite (run_opened_count ev w owner data r) by done. fold set.
    unfold bind. rewrite run_update.
    change (db (logged w (opened_select data))) with (db w).
    by rewrite Hupd. }
  simpl. split; [|split].
  - by rewrite last_snoc.
  - by rewrite length_fmap.
  - intros i r' Hi. rewrite list_lookup_fmap in Hi.
    destruct (bookmarks (db w) !! i) as [r0|] eqn:H0; [|done].
    simpl in Hi. injection Hi as <-.
    split; [|split].
    + apply patch_row_set; [done| |reflexivity].
      simpl. rewrite !elem_of_cons. tauto.
    + apply (patch_row_set _ _ _ _ _ (VDate (now ev))); [done| |reflexivity].
      simpl. rewrite !elem_of_cons. tauto.
    + exists r0. split; [done|]. by apply patch_row_other.
Qed.

End OpenedCount.

(** C1.  With a stored count of 5 the update of
    [updateIncreasedOpenedCount] carries 5 for [openedTimes]: neither the 1
    of the claim nor the 6 of an increment. *)
Lemma opened_count_five_writes_five :
  identified [("id", "1")] (db Demo.world) = Some (Demo.bookmark_row 1 1 (VNum 5))
  /\ stored_count (Demo.bookmark_row 1 1 (VNum 5)) = VNum 5
  /\ exists set : Obj,
       last (log (fst (updateIncreasedOpenedCount Demo.env Demo.open_first Demo.world)))
       = Some (Update bookmarkSchema set NoFilter)
       /\ set !! "openedTimes" = Some (VNum 5)
       /\ set !! "openedTimes" <> Some (VNum 1)
       /\ set !! "openedTimes" <> Some (VNum 6).
Proof.
  split; [reflexivity|]. split; [reflexivity|].
  exists (opened_set Demo.open_first (VNum 5)).
  split; [vm_compute; reflexivity|]. split; [reflexivity|].
  split; vm_compute; discriminate.
Qed.

Lemma opened_count_updates_every_row_witness :
  Demo.bookmark_row 2 2 (VNum 0) !! "openedTimes" = Some (VNum 0)
  /\ exists r' : Obj,
       bookmarks (db (fst (updateIncreasedOpenedCount Demo.env Demo.open_first Demo.world)))
         !! 1%nat = Some r'
       /\ r' !! "id" = Some (VNum 2)
       /\ r' !! "openedTimes" = Some (VNum 5)
       /\ r' !! "openedLast" = Some (VDate 1000).
Proof.
  split; [reflexivity|].
  destruct (opened_count_updates_every_row Demo.env Demo.open_first Demo.world 1
              [("id", "1")] (Demo.bookmark_row 1 1 (VNum 5)))
    as (_ & _ & Hrows);
    [reflexivity | lia | reflexivity | reflexivity | reflexivity | reflexivity |].
  eexists. split; [reflexivity|].
  destruct (Hrows 1%nat _ eq_refl) as (Ht & Hl & r0 & Hr0 & Hid).
  split; [|split; [exact Ht | exact Hl]].
  rewrite Hid. injection Hr0 as <-. reflexivity.
Defined.

(** One step of a frame proof: split a bind, or close a leaf that does not
    touch the database. *)
Ltac frame_step :=
  lazymatch goal with
  | |- PreOrder _ => apply _
  | |- keeps _ _ (bind _ _) => eapply keeps_bind; [apply _ | | intros ? ?]
  | |- keeps _ _ (ret _) =>
      first [ apply keeps_ret; [apply _ | done]
            | apply keeps_ret; [apply _ | by instantiate (1 := any)]
            | apply keeps_ret; [apply _ | ] ]
  | |- keeps _ _ (throw _) => apply keeps_throw; apply _
  | |- keeps _ _ (lift _) => apply keeps_lift; apply _
  | |- keeps _ _ (member _ _) => apply keeps_member; apply _
  | |- keeps _ _ (try_catch _ _) => apply keeps_try_catch; [apply _ | | intros ?]
  | |- keeps _ _ (if _ then _ else _) => apply keeps_if
  end.

(** ** Frames: what a handler leaves alone *)

Section Frames.
Context {Ext : Type} (env : Env Ext).
Context (P : Stmt -> Prop) (I : DB -> DB -> Prop) `{!PreOrder I}.
Implicit Types w : World Ext.

#[global] Instance extends_preorder : PreOrder (extends (Ext:=Ext) P I).
Proof.
  split.
  - intros w. split; [|reflexivity]. exists []. by rewrite app_nil_r.
  - intros w1 w2 w3 [(l1 & E1 & F1) I1] [(l2 & E2 & F2) I2].
    split; [|by etransitivity].
    exists (l1 ++ l2)%list. split.
    + by rewrite E2, E1, app_assoc.
    + by apply Forall_app.
Qed.

Lemma extends_logged w s : P s -> extends P I w (logged w s).
Proof.
  intros Hs. split; [|reflexivity]. exists [s]. split; [done|].
  by constructor.
Qed.

Lemma extends_logged_with w s d :
  P s -> I (db w) d -> extends P I w (logged_with w s d).
Proof.
  intros Hs Hd. split; [|done]. exists [s]. split; [done|]. by constructor.
Qed.

Lemma keeps_insert t values :
  P (Insert t values) ->
  (forall d, I d (apply_insert (tableDefaults env t) t values d)) ->
  keeps (extends P I) any (insert env t values).
Proof.
  intros Hs Hd w. rewrite run_insert.
  destruct (dbFault env _ (db w)); simpl; (split; [|done]).
  - by apply extends_logged.
  - by apply extends_logged_with.
Qed.

Lemma keeps_update t set f :
  P (Update t set f) ->
  (forall d, I d (apply_update t set f d)) ->
  keeps (extends P I) any (update env t set f).
Proof.
  intros Hs Hd w. rewrite run_update.
  destruct (dbFault env _ (db w)); simpl; (split; [|done]).
  - by apply extends_logged.
  - by apply extends_logged_with.
Qed.

Lemma keeps_delete t f :
  P (Delete t f) ->
  (forall d, I d (apply_delete t f d)) ->
  keeps (extends P I) any (delete_from env t f).
Proof.
  intros Hs Hd w. rewrite run_delete.
  destruct (dbFault env _ (db w)); simpl; (split; [|done]).
  - by apply extends_logged.
  - by apply extends_logged_with.
Qed.

Lemma keeps_select t fields f :
  P (Select t fields f) -> keeps (extends P I) any (select env t fields f).
Proof.
  intros Hs w. rewrite run_select_stmt.
  destruct (dbFault env _ (db w)); simpl; (split; [|done]);
    by apply extends_logged.
Qed.

Lemma keeps_call {A} (f : Ext -> Ext * Outcome A) :
  keeps (extends P I) any (call f).
Proof.
  intros w. unfold call. destruct (f (ext w)) as [x o]. simpl.
  split; [|done]. split; [|reflexivity]. exists []. by rewrite app_nil_r.
Qed.

(** [storeImage] talks to the network and to the storage only. *)
Lemma keeps_storeImage url title ownerId :
  keeps (extends P I) any (storeImage env url title ownerId).
Proof.
  unfold storeImage. destruct url as [u|]; [|frame_step].
  frame_step; [|frame_step].
  frame_step; [apply keeps_call|].
  frame_step; [frame_step|].
  frame_step; [apply keeps_call|].
  frame_step.
Qed.

End Frames.

(** ** Updating a category *)

#[global] Instance same_category_keys_preorder : PreOrder same_category_keys.
Proof.
  split.
  - by intros d.
  - intros d1 d2 d3 H1 H2. unfold same_category_keys in *. congruence.
Qed.

Lemma apply_update_category_keys (set : Obj) (f : Filter) (d : DB) :
  set !! "id" = None -> set !! "owner" = None -> set !! "initial" = None ->
  same_category_keys d (apply_update categorySchema set f d).
Proof.
  intros Hid Hown Hini. unfold same_category_keys, apply_update.
  simpl. rewrite <- list_fmap_compose.
  apply list_fmap_ext. intros i c _. unfold category_key, compose.
  by rewrite !patch_row_other.
Qed.

Section UpdateCategory.
Context {Ext : Type} (env : Env Ext).

(** C9.  [updateCategory] never writes [owner] or [initial]: no statement
    it issues assigns either column, and whatever the outcome every
    category row keeps its id, its owner and its initial flag. *)
Theorem updateCategory_keeps_owner_and_initial (ev : RequestEvent) (w : World Ext) :
  (exists l : list Stmt,
     log (fst (updateCategory env ev w)) = (log w ++ l)%list
     /\ Forall leaves_owner_and_initial l)
  /\ category_key <$> categories (db (fst (updateCategory env ev w)))
     = category_key <$> categories (db w).
Proof.
  change (extends leaves_owner_and_initial same_category_keys w
            (fst (updateCategory env ev w))).
  revert w. cut (keeps (extends leaves_owner_and_initial same_category_keys)
                   (@any Val) (updateCategory env ev)).
  { intros H w. apply H. }
  unfold updateCategory. destruct (owner_of ev) as [owner|]; [|frame_step].
  frame_step; [frame_step|].
  frame_step; [frame_step|].
  frame_step; [frame_step|].
  frame_step; [frame_step|].
  frame_step; [|frame_step].
  apply keeps_update; [apply _|by split|].
  intros d. by apply apply_update_category_keys.
Qed.

End UpdateCategory.

(** User 1 renames category 1, which belongs to user 2 and is an initial
    category: the name changes, the owner and the flag stay. *)
Example updateCategory_on_a_foreign_category :
  let w' := fst (updateCategory Demo.env
                   (Demo.event (Some 1) [("id", "1"); ("name", "later"); ("parent", "null")])
                   Demo.world) in
  (fun c => (c !! "name", c !! "owner", c !! "initial")) <$> categories (db Demo.world)
  = [(Some (VStr "inbox"), Some (VNum 2), Some (VBool true))]
  /\ (fun c => (c !! "name", c !! "owner", c !! "initial")) <$> categories (db w')
     = [(Some (VStr "later"), Some (VNum 2), Some (VBool true))].
Proof. split; reflexivity. Qed.

(** Leaves that act on the external state only. *)
Ltac frame_leaf :=
  lazymatch goal with
  | |- keeps (extends _ _) _ (call _) => apply keeps_call; apply _
  | |- keeps (extends _ _) _ (storeImage _ _ _ _) => apply keeps_storeImage; apply _
  end.

Ltac frame := repeat first [frame_step | frame_leaf].

(** ** Updating a bookmark: tags accumulate *)

#[global] Instance join_grows_preorder : PreOrder join_grows.
Proof.
  split.
  - intros d. exists []. by rewrite app_nil_r.
  - intros d1 d2 d3 [a1 H1] [a2 H2]. exists (a1 ++ a2)%list.
    by rewrite H2, H1, app_assoc.
Qed.

Lemma join_grows_insert (defaults : Obj) (t : Table) (values : Obj) (d : DB) :
  join_grows d (apply_insert defaults t values d).
Proof.
  unfold join_grows, apply_insert.
  destruct t; simpl; first [by eexists | by exists []; rewrite app_nil_r].
Qed.

Lemma join_grows_update (t : Table) (set : Obj) (f : Filter) (d : DB) :
  t <> bookmarksToTagsSchema -> join_grows d (apply_update t set f d).
Proof.
  intros Ht. exists []. rewrite app_nil_r. by destruct t.
Qed.

Section UpdateBookmark.
Context {Ext : Type} (env : Env Ext).

(** C5.  [updateBookmark] only adds join rows.  Whatever the request and
    whatever the outcome, it issues no delete, and the join table after
    the action is the join table before it followed by the rows it added:
    every association that existed is still there. *)
Theorem updateBookmark_only_adds_tags (ev : RequestEvent) (w : World Ext) :
  (exists l : list Stmt,
     log (fst (updateBookmark env ev w)) = (log w ++ l)%list
     /\ Forall never_deletes l)
  /\ (exists added : list Obj,
        bookmarksToTags (db (fst (updateBookmark env ev w)))
        = (bookmarksToTags (db w) ++ added)%list)
  /\ forall r : Obj,
       r ∈ bookmarksToTags (db w) ->
       r ∈ bookmarksToTags (db (fst (updateBookmark env ev w))).
Proof.
  assert (keeps (extends never_deletes join_grows) (@any Val)
            (updateBookmark env ev)) as H.
  { unfold updateBookmark. destruct (owner_of ev) as [owner|]; [|frame].
    frame.
    all: try (apply keeps_update; [apply _|done|];
              intros d; by apply join_grows_update).
    all: try (apply keeps_promise_all; [apply _|done]).
    - apply (keeps_map_sync _ (keeps (extends never_deletes join_grows) any)).
      intros tagId. frame.
      apply keeps_insert; [apply _|done|]. intros d. apply join_grows_insert. }
  destruct (H w) as [[Hlog [added Hadd]] _].
  split; [done|]. split; [by exists added|].
  intros r Hr. rewrite Hadd. apply elem_of_app. by left.
Qed.

End UpdateBookmark.

(** Bookmark 1 carries tag 7; an update that supplies only tag 9 leaves the
    bookmark with both. *)
Example updateBookmark_with_disjoint_tags :
  let w' := fst (updateBookmark Demo.env
                   (Demo.event (Some 1) [("id", "1"); ("tags", "[9]"); ("category", "4")])
                   Demo.world) in
  bookmarksToTags (db Demo.world) = [Demo.join_row 1 7]
  /\ bookmarksToTags (db w') = [Demo.join_row 1 7; Demo.join_row 1 9].
Proof. split; reflexivity. Qed.

(** ** Weakest preconditions *)

Section Wp.
Context {Ext : Type}.
Implicit Types w : World Ext.

Lemma wp_bind {A B} (m : M Ext A) (k : A -> M Ext B) Q w :
  wp m (fun w' o => match o with
                    | Return a => wp (k a) Q w'
                    | Throw e => Q w' (Throw e)
                    end) w ->
  wp (bind m k) Q w.
Proof. unfold wp, bind. by destruct (m w) as [w' [a|e]]. Qed.


Lemma wp_run {A} (m : M Ext A) Q w w' o : m w = (w', o) -> Q w' o -> wp m Q w.
Proof. unfold wp. by intros ->. Qed.


Lemma run_if_lift {A} (b : bool) (o : Outcome A) (a : A) w :
  (if b then lift o else ret a) w = (w, if b then o else Return a).
Proof. by destruct b. Qed.

End Wp.

(** ** Creating a bookmark: the join rows *)

Lemma lookup_null_row (t : Table) (k : string) :
  null_row t !! k = if decide (k ∈ columns t) then Some VNull else None.
Proof.
  unfold null_row. induction (columns t) as [|a ks IH].
  - by destruct (decide (k ∈ [])) as [H%elem_of_nil|].
  - rewrite fmap_cons. simpl. rewrite lookup_insert.
    destruct (decide (a = k)) as [->|Hne].
    + by rewrite decide_True by left.
    + rewrite IH. destruct (decide (k ∈ ks)).
      * by rewrite decide_True by (by right).
      * rewrite decide_False; [done|]. rewrite elem_of_cons. intros [?|?]; done.
Qed.

(** The row stored for a join insert is the pair itself, as bound. *)
Lemma new_join_row (defaults : Obj) (bookmarkId : Val) (tagId : Z) (d : DB) :
  new_row defaults bookmarksToTagsSchema (join_values (Some bookmarkId) tagId) d
  = join_values (Some (bound bookmarkId)) tagId.
Proof.
  apply map_eq. intros k. unfold new_row. simpl next_id. simpl default.
  rewrite !lookup_union, lookup_bind_values, lookup_restrict, lookup_empty,
    lookup_null_row.
  unfold join_values, obj. simpl.
  destruct (decide (k = "bookmarkId")) as [->|H1].
  { rewrite !decide_True by (rewrite !elem_of_cons; tauto).
    rewrite !lookup_insert_eq. simpl. by destruct (defaults !! "bookmarkId"). }
  destruct (decide (k = "tagId")) as [->|H2].
  { rewrite !decide_True by (rewrite !elem_of_cons; tauto).
    rewrite !lookup_insert_ne, !lookup_insert_eq by done. simpl.
    by destruct (defaults !! "tagId"). }
  rewrite !decide_False by (rewrite !elem_of_cons, elem_of_nil; tauto).
  by rewrite !lookup_insert_ne, lookup_empty.
Qed.

(** The row stored for an insert that supplies no [id] carries the
    generated one. *)
Lemma new_bookmark_id (defaults values : Obj) (d : DB) :
  values !! "id" = None ->
  new_row defaults bookmarkSchema values d !! "id" = Some (VNum (bookmarkSeq d)).
Proof.
  intros H. unfold new_row.
  change (default ∅ _) with ({[ "id" := VNum (bookmarkSeq d) ]} : Obj).
  rewrite <- !(assoc_L (∪)).
  rewrite lookup_union_r by apply lookup_bind_values_absent, H.
  apply lookup_union_Some_l, lookup_singleton_eq.
Qed.

Lemma bookmarks_apply_insert (defaults values : Obj) (d : DB) :
  bookmarks (apply_insert defaults bookmarkSchema values d)
  = (bookmarks d ++ [new_row defaults bookmarkSchema values d])%list.
Proof. reflexivity. Qed.

Section CreateBookmark.
Context {Ext : Type} (env : Env Ext).
Implicit Types w : World Ext.

(** Past the authorization check and [formData()], the action is its
    [try] block under its [catch]. *)
Lemma run_addNewBookmark (ev : RequestEvent) w (owner : Z) (data : FormData) :
  owner_of ev = Some owner -> owner <> 0 ->
  formData (request ev) = Return data ->
  addNewBookmark env ev w
  = try_catch (addNewBookmark_try env ev owner data)
      (fun e => ret (handlePBError env (inl e))) w.
Proof.
  intros Hown Hne Hdata. unfold addNewBookmark.
  by rewrite Hown, (owner_accepted _ Hne), Hdata.
Qed.

Lemma executes_app (l1 l2 : list Stmt) (d : DB) :
  executes env (l1 ++ l2) d
  <-> executes env l1 d /\ executes env l2 (run_all env l1 d).
Proof.
  revert d. induction l1 as [|s l1 IH]; intros d; simpl; [tauto|].
  rewrite IH. tauto.
Qed.

(** When the driver executes them all, the join inserts leave the tables
    they produce in turn, and their statements in the log. *)
Lemma run_join_inserts (bookmarkId : option Val) (tagIds : list Z) w :
  executes env (join_inserts bookmarkId tagIds) (db w) ->
  exists results : list (list Obj),
    promise_all
      ((fun tagId => insert env bookmarksToTagsSchema
                       (join_values bookmarkId tagId)) <$> tagIds) w
    = (mkWorld (run_all env (join_inserts bookmarkId tagIds) (db w)) (ext w)
         (log w ++ join_inserts bookmarkId tagIds),
       Return results).
Proof.
  revert w. induction tagIds as [|t rest IH]; intros w Hexec.
  - exists []. destruct w. simpl. by rewrite app_nil_r.
  - destruct Hexec as [Hf Hrest].
    rewrite fmap_cons. simpl promise_all. rewrite run_insert, Hf.
    destruct (IH (logged_with w (Insert bookmarksToTagsSchema
                                   (join_values bookmarkId t))
                    (apply_insert (tableDefaults env bookmarksToTagsSchema)
                       bookmarksToTagsSchema (join_values bookmarkId t) (db w)))
                Hrest) as [results ->].
    eexists. simpl. by rewrite <- app_assoc.
Qed.

(** The join inserts of a numeric bookmark id, executed, append the pairs
    to the join table and touch no bookmark. *)
Lemma run_all_join_inserts (bid : Z) (tagIds : list Z) (d : DB) :
  bookmarksToTags (run_all env (join_inserts (Some (VNum bid)) tagIds) d)
  = (bookmarksToTags d ++ (join_values (Some (VNum bid)) <$> tagIds))%list
  /\ bookmarks (run_all env (join_inserts (Some (VNum bid)) tagIds) d)
     = bookmarks d.
Proof.
  revert d. induction tagIds as [|t rest IH]; intros d.
  - simpl. by rewrite app_nil_r.
  - destruct (IH (executed env (Insert bookmarksToTagsSchema
                                  (join_values (Some (VNum bid)) t)) d))
      as [Hj Hb].
    change (run_all env (join_inserts (Some (VNum bid)) (t :: rest)) d)
      with (run_all env (join_inserts (Some (VNum bid)) rest)
              (executed env (Insert bookmarksToTagsSchema
                               (join_values (Some (VNum bid)) t)) d)).
    rewrite Hj, Hb. split; [|done].
    unfold executed, apply_insert. simpl bookmarksToTags.
    rewrite new_join_row. rewrite fmap_cons, <- app_assoc. done.
Qed.

#[global] Instance same_joins_and_ids_preorder : PreOrder same_joins_and_ids.
Proof.
  split.
  - by intros d.
  - intros d1 d2 d3 [H1 H2] [H3 H4]. split; congruence.
Qed.




End CreateBookmark.




(** ** Creating a bookmark: what the [catch] covers *)

Section CatchAll.
Context {Ext : Type} (env : Env Ext).

(** C6, as amended.  The [try] block of [addNewBookmark] holds the whole
    body after [request.formData()]: field parsing, tag resolution, the
    bookmark insert, and also the tag-join inserts, the image archival and
    the image patch.  Whatever any of them throws is caught and returned
    as the response of the error helper; only a rejection of
    [request.formData()] propagates. *)
Theorem addNewBookmark_catches_every_error (ev : RequestEvent) (w : World Ext)
    (owner : Z) :
  owner_of ev = Some owner -> owner <> 0 ->
  (forall data : FormData,
     formData (request ev) = Return data ->
     (exists r : Val, snd (addNewBookmark env ev w) = Return r)
     /\ (forall (w' : World Ext) (e : Thrown),
           addNewBookmark_try env ev owner data w = (w', Throw e) ->
           addNewBookmark env ev w = (w', Return (handlePBError env (inl e))))
     /\ (forall (w' : World Ext) (r : Val),
           addNewBookmark_try env ev owner data w = (w', Return r) ->
           addNewBookmark env ev w = (w', Return r)))
  /\ (forall e : Thrown,
        formData (request ev) = Throw e ->
        addNewBookmark env ev w = (w, Throw e)).
Proof.
  intros Hown Hne. split.
  - intros data Hdata. rewrite (run_addNewBookmark env ev w owner data) by done.
    unfold try_catch.
    destruct (addNewBookmark_try env ev owner data w) as [w' [r|e]]; simpl.
    + split; [by eexists|]. split; [done|]. by intros ? ? [= -> ->].
    + split; [by eexists|]. split; [|done]. by intros ? ? [= -> ->].
  - intros e He. unfold addNewBookmark.
    by rewrite Hown, (owner_accepted _ Hne), He.
Qed.

End CatchAll.

Lemma addNewBookmark_catches_every_error_witness :
  exists r : Val,
    snd (addNewBookmark Demo.env Demo.save_with_repeated_tag Demo.world) = Return r.
Proof.
  destruct (addNewBookmark_catches_every_error Demo.env Demo.save_with_repeated_tag
              Demo.world 1) as [H _]; [reflexivity | lia |].
  exact (proj1 (H _ eq_refl)).
Defined.

(** C6 as stated fails: an error thrown by a tag-join insert is caught.  The
    last statement issued is the rejected join insert, and the action
    returns the response of the error helper instead of throwing. *)
Lemma join_insert_error_is_caught :
  let run := addNewBookmark Demo.env Demo.save_with_repeated_tag Demo.world in
  let rejected := Insert bookmarksToTagsSchema (join_values (Some (VNum 3)) 7) in
  last (log (fst run)) = Some rejected
  /\ dbFault Demo.env rejected (db (fst run)) = Some (Raised "UNIQUE constraint failed")
  /\ snd run
     = Return (handlePBError Demo.env (inl (Raised "UNIQUE constraint failed")))
  /\ forall e : Thrown, snd run <> Throw e.
Proof.
  vm_compute. split; [reflexivity|]. split; [reflexivity|].
  split; [reflexivity|]. discriminate.
Qed.

(** The image patch too is under the [catch]: with a driver that rejects
    every update of a bookmark, archiving succeeds, the patch is rejected,
    and the action returns the response of the error helper. *)
Example image_patch_error_is_caught :
  let run := addNewBookmark Demo.busy_env
               (Demo.event (Some 1)
                  [("url", "http://x"); ("category", "4");
                   ("main_image_url", "http://x/a.png")])
               Demo.world in
  last (log (fst run))
  = Some (Update bookmarkSchema (image_set (Some 1) None) (IdEq (Some (VNum 3))))
  /\ snd run = Return (handlePBError Demo.busy_env (inl (Raised "SQLITE_BUSY"))).
Proof. vm_compute. split; reflexivity. Qed.

(** ** Creating a bookmark: images that are not archived *)

#[global] Instance adds_null_main_images_preorder : PreOrder adds_null_main_images.
Proof.
  split.
  - intros d. exists []. split; [by rewrite app_nil_r|done].
  - intros d1 d2 d3 (n1 & H1 & F1) (n2 & H2 & F2). exists (n1 ++ n2)%list.
    split; [by rewrite H2, H1, app_assoc|by apply Forall_app].
Qed.

#[global] Instance unrelated_preorder : PreOrder unrelated.
Proof. by split. Qed.

Lemma main_image_cells_insert_bookmark (defaults values : Obj) (d : DB) :
  values !! "mainImageId" = None -> defaults !! "mainImageId" = None ->
  adds_null_main_images d (apply_insert defaults bookmarkSchema values d).
Proof.
  intros Hv Hd. exists [Some VNull]. split; [|by repeat constructor].
  unfold main_image_cells. rewrite bookmarks_apply_insert, fmap_app. f_equal.
  rewrite list_fmap_singleton. f_equal. unfold new_row.
  change (default ∅ _) with ({[ "id" := VNum (bookmarkSeq d) ]} : Obj).
  rewrite <- !(assoc_L (∪)).
  rewrite lookup_union_r by apply lookup_bind_values_absent, Hv.
  rewrite lookup_union_r by by apply lookup_singleton_ne.
  rewrite lookup_union_r by apply lookup_restrict_absent, Hd.
  rewrite lookup_null_row. apply decide_True.
  simpl. rewrite !elem_of_cons. tauto.
Qed.

Lemma main_image_cells_insert_join (defaults values : Obj) (d : DB) :
  adds_null_main_images d (apply_insert defaults bookmarksToTagsSchema values d).
Proof. exists []. split; [by rewrite app_nil_r|done]. Qed.

Lemma main_image_cells_patch (iconId : option Z) (f : Filter) (d : DB) :
  adds_null_main_images d (apply_update bookmarkSchema (image_set None iconId) f d).
Proof.
  exists []. split; [|done]. rewrite app_nil_r. unfold main_image_cells. simpl.
  rewrite <- list_fmap_compose. apply list_fmap_ext. intros i r _.
  unfold compose. apply patch_row_other. by destruct iconId.
Qed.

Section SkippedImages.
Context {Ext : Type} (env : Env Ext).
Implicit Types w : World Ext.

(** An absent, empty or non-image URL is skipped: nothing is fetched or
    stored, and [storeImage] returns [undefined]. *)
Lemma storeImage_skipped (url title : option string) (ownerId : Z) w :
  archivable env url = false ->
  storeImage env url title ownerId w = (w, Return None).
Proof.
  unfold archivable, storeImage. destruct url as [u|]; [|done].
  by intros ->.
Qed.

Lemma keeps_storeImage_skipped (R : World Ext -> World Ext -> Prop)
    `{!PreOrder R} (url title : option string) (ownerId : Z) :
  archivable env url = false ->
  keeps R (fun id => id = None) (storeImage env url title ownerId).
Proof.
  intros H w. rewrite storeImage_skipped by done. simpl.
  split; [reflexivity|]. by intros ? [= <-].
Qed.

Lemma keeps_join_inserts (P : Stmt -> Prop) (I : DB -> DB -> Prop)
    `{!PreOrder I} (bookmarkId : option Val) (tagIds : list Z) :
  (forall values, P (Insert bookmarksToTagsSchema values)) ->
  (forall defaults values d,
     I d (apply_insert defaults bookmarksToTagsSchema values d)) ->
  keeps (extends P I) any
    (promise_all
       ((fun tagId => insert env bookmarksToTagsSchema (join_values bookmarkId tagId))
          <$> tagIds)).
Proof.
  intros HP HI. apply keeps_promise_all; [apply _|].
  apply Forall_fmap, Forall_forall. intros tagId _.
  apply keeps_insert; [apply _|apply HP|]. intros d. apply HI.
Qed.

(** C7.  When the main image URL is absent, empty or not an image URL,
    [storeImage] skips it and returns no id.  The action then never
    writes [mainImageId]: every row keeps its main image reference and
    the row of the new bookmark has a null one.  When the icon is skipped
    as well, no update statement is issued at all. *)
Theorem addNewBookmark_skips_non_image (ev : RequestEvent) w (owner : Z)
    (data : FormData) :
  owner_of ev = Some owner -> owner <> 0 ->
  formData (request ev) = Return data ->
  archivable env (get "main_image_url" data) = false ->
  tableDefaults env bookmarkSchema !! "mainImageId" = None ->
  let w' := fst (addNewBookmark env ev w) in
  (forall w0,
     storeImage env (get "main_image_url" data) (get "title" data) owner w0
     = (w0, Return None))
  /\ (exists news : list (option Val),
        main_image_cells (db w') = (main_image_cells (db w) ++ news)%list
        /\ Forall (eq (Some VNull)) news)
  /\ (archivable env (get "icon_url" data) = false ->
      exists l : list Stmt,
        log w' = (log w ++ l)%list /\ Forall is_not_update l).
Proof.
  intros Hown Hne Hdata Hmain Hdef w'. subst w'.
  rewrite (run_addNewBookmark env ev w owner data) by done.
  split; [intros w0; by apply storeImage_skipped|]. split.
  - cut (keeps (extends any adds_null_main_images) (@any Val)
           (try_catch (addNewBookmark_try env ev owner data)
              (fun e => ret (handlePBError env (inl e))))).
    { intros H. by destruct (H w) as [[_ ?] _]. }
    unfold addNewBookmark_try. cbv zeta.
    frame_step; [|frame_step].
    frame_step; [frame_step|]. frame_step; [frame|].
    frame_step; [apply keeps_call; apply _|].
    frame_step.
    { apply keeps_insert; [apply _|done|]. intros d.
      by apply main_image_cells_insert_bookmark. }
    frame_step; [frame_step|]. frame_step; [frame_step|].
    frame_step.
    { apply keeps_join_inserts; [apply _|done|].
      intros. apply main_image_cells_insert_join. }
    frame_step; [by apply keeps_storeImage_skipped; [apply _|]|].
    simpl in *. subst.
    frame.
    apply keeps_update; [apply _|done|]. intros d. apply main_image_cells_patch.
  - intros Hicon.
    cut (keeps (extends is_not_update unrelated) (@any Val)
           (try_catch (addNewBookmark_try env ev owner data)
              (fun e => ret (handlePBError env (inl e))))).
    { intros H. by destruct (H w) as [[? _] _]. }
    unfold addNewBookmark_try. cbv zeta.
    frame_step; [|frame_step].
    frame_step; [frame_step|]. frame_step; [frame|].
    frame_step; [apply keeps_call; apply _|].
    frame_step; [by apply keeps_insert; [apply _| |]|].
    frame_step; [frame_step|]. frame_step; [frame_step|].
    frame_step; [by apply keeps_join_inserts; [apply _| |]|].
    frame_step; [by apply keeps_storeImage_skipped; [apply _|]|].
    frame_step; [by apply keeps_storeImage_skipped; [apply _|]|].
    simpl in *. subst. simpl. frame.
Qed.

End SkippedImages.

Lemma addNewBookmark_skips_non_image_witness :
  exists news : list (option Val),
    main_image_cells
      (db (fst (addNewBookmark Demo.env Demo.save_with_two_tags Demo.world)))
    = (main_image_cells (db Demo.world) ++ news)%list
    /\ Forall (eq (Some VNull)) news.
Proof.
  destruct (addNewBookmark_skips_non_image Demo.env Demo.save_with_two_tags Demo.world 1
              [("url", "http://x"); ("tags", "[7,8]"); ("category", "4");
               ("main_image_url", "http://x/a.txt")]) as (_ & H & _);
    [reflexivity | lia | reflexivity | reflexivity | reflexivity |].
  exact H.
Defined.

(** The main image URL of the request is not an image URL: a third row is
    stored, its main image reference is null, and no update is issued. *)
Example addNewBookmark_with_a_text_url :
  let w' := fst (addNewBookmark Demo.env Demo.save_with_two_tags Demo.world) in
  checkIfImageURL Demo.env "http://x/a.txt" = false
  /\ length (bookmarks (db Demo.world)) = 2%nat
  /\ (fun r : Obj => (r !! "id", r !! "mainImageUrl", r !! "mainImageId"))
       <$> drop 2 (bookmarks (db w'))
     = [(Some (VNum 3), Some (VStr "http://x/a.txt"), Some VNull)]
  /\ (fun s => match s with Insert t _ => Some t | _ => None end) <$> log w'
     = [Some bookmarkSchema; Some bookmarksToTagsSchema; Some bookmarksToTagsSchema].
Proof. vm_compute. repeat split; reflexivity. Qed.

(** ** Changing the theme *)

Lemma head_fmap {A B : Type} (f : A -> B) (l : list A) :
  head (f <$> l) = f <$> head l.
Proof. by destruct l. Qed.

Section ChangeTheme.
Context {Ext : Type} (env : Env Ext).
Implicit Types w : World Ext.

Lemma run_changeTheme (ev : RequestEvent) w (owner : Z) (data : FormData) :
  owner_of ev = Some owner -> owner <> 0 ->
  formData (request ev) = Return data ->
  dbFault env (settings_select owner) (db w) = None ->
  changeTheme env ev w
  = match stored_settings owner (db w) with
    | Some cell =>
        match JSON_parse env cell with
        | Return parsed =>
            let upd := settings_update owner
                         (merged_settings parsed (str_val (get "theme" data))) in
            match dbFault env upd (db w) with
            | None =>
                (logged_with (logged w (settings_select owner)) upd
                   (apply_update userSchema
                      (obj [("settings",
                             Some (VObj (merged_settings parsed
                                           (str_val (get "theme" data)))))])
                      (IdEq (Some (VNum owner))) (db w)),
                 Return succeeded)
            | Some _ => (logged (logged w (settings_select owner)) upd, Return failure)
            end
        | Throw _ => (logged w (settings_select owner), Return failure)
        end
    | None => (logged w (settings_select owner), Return failure)
    end.
Proof.
  intros Hown Hne Hdata Hsel. unfold changeTheme.
  rewrite Hown, (owner_accepted _ Hne), Hdata.
  unfold bind at 1, lift. unfold bind at 1. rewrite run_select_stmt.
  unfold settings_select in Hsel. rewrite Hsel.
  unfold stored_settings, run_select. rewrite head_fmap. simpl rows.
  destruct (head (filter _ (users (db w)))) as [r|]; [|reflexivity].
  unfold try_catch, bind at 1. simpl member.
  change (project [("settings", "settings")] r !! "settings")
    with (Some (default VNull (r !! "settings"))).
  unfold ret at 1. unfold bind at 1, lift. simpl JSON_parse_opt. simpl fmap.
  cbv beta iota.
  destruct (JSON_parse env (default VNull (r !! "settings"))) as [parsed|e];
    [|reflexivity].
  unfold bind. rewrite run_update.
  change (db (logged w _)) with (db w).
  unfold settings_update.
  by destruct (dbFault env (Update _ _ _) (db w)).
Qed.

(** C8.  [changeTheme] writes the shallow merge of the parsed settings
    with the theme: [theme] is the submitted value and every other key of
    the parsed object keeps its value.  When the stored settings do not
    parse, or the write is rejected, the action returns
    [{ success: false }] and the tables are as before. *)
Theorem changeTheme_merges_settings (ev : RequestEvent) w (owner : Z)
    (data : FormData) :
  owner_of ev = Some owner -> owner <> 0 ->
  formData (request ev) = Return data ->
  dbFault env (settings_select owner) (db w) = None ->
  let theme := str_val (get "theme" data) in
  (forall cell parsed : Val,
     stored_settings owner (db w) = Some cell ->
     JSON_parse env cell = Return parsed ->
     let written := merged_settings parsed theme in
     written !! "theme" = Some theme
     /\ (forall k : string, k <> "theme" -> written !! k = spread parsed !! k)
     /\ log (fst (changeTheme env ev w))
        = (log w ++ [settings_select owner; settings_update owner written])%list
     /\ (dbFault env (settings_update owner written) (db w) = None ->
         snd (changeTheme env ev w) = Return succeeded
         /\ forall r' : Obj,
              r' ∈ users (db (fst (changeTheme env ev w))) ->
              matches (IdEq (Some (VNum owner))) r' = true ->
              r' !! "settings" = Some (VObj written))
     /\ (forall e : Thrown,
           dbFault env (settings_update owner written) (db w) = Some e ->
           snd (changeTheme env ev w) = Return failure
           /\ db (fst (changeTheme env ev w)) = db w))
  /\ (forall (cell : Val) (e : Thrown),
        stored_settings owner (db w) = Some cell ->
        JSON_parse env cell = Throw e ->
        snd (changeTheme env ev w) = Return failure
        /\ db (fst (changeTheme env ev w)) = db w)
  /\ (stored_settings owner (db w) = None ->
      snd (changeTheme env ev w) = Return failure
      /\ db (fst (changeTheme env ev w)) = db w).
Proof.
  intros Hown Hne Hdata Hsel theme.
  rewrite (run_changeTheme ev w owner data) by done. fold theme.
  split; [|split].
  - intros cell parsed -> ->. cbv zeta.
    split; [apply lookup_insert_eq|].
    split; [intros k Hk; by apply lookup_insert_ne|].
    split; [|split].
    + destruct (dbFault env (settings_update _ _) (db w)); simpl;
        by rewrite <- app_assoc.
    + intros ->. split; [done|]. simpl. intros r' Hr' Hm.
      apply list_elem_of_fmap in Hr' as (r & -> & _).
      destruct (matches (IdEq (Some (VNum owner))) r) eqn:Hr.
      * apply (patch_row_set _ _ _ _ _ (VObj (merged_settings parsed theme)));
          [done| |reflexivity].
        simpl. rewrite !elem_of_cons. tauto.
      * rewrite patch_row_other in Hm by reflexivity. simpl in Hr. congruence.
    + by intros e ->.
  - by intros cell e -> ->.
  - by intros ->.
Qed.

End ChangeTheme.

Lemma changeTheme_merges_settings_witness :
  merged_settings Demo.light_settings (VStr "dark") !! "theme" = Some (VStr "dark")
  /\ merged_settings Demo.light_settings (VStr "dark") !! "lang" = Some (VStr "en")
  /\ snd (changeTheme Demo.env Demo.pick_dark Demo.world) = Return succeeded
  /\ log (fst (changeTheme Demo.env Demo.pick_dark Demo.world))
     = [settings_select 1;
        settings_update 1 (merged_settings Demo.light_settings (VStr "dark"))].
Proof.
  destruct (changeTheme_merges_settings Demo.env Demo.pick_dark Demo.world 1
              [("theme", "dark")]) as (H & _ & _);
    [reflexivity | lia | reflexivity | reflexivity |].
  destruct (H Demo.light_settings Demo.light_settings eq_refl eq_refl)
    as (Htheme & Hkeep & Hlog & Hok & _).
  split; [exact Htheme|]. split.
  - etransitivity; [apply (Hkeep "lang"); discriminate|reflexivity].
  - split; [exact (proj1 (Hok eq_refl))|exact Hlog].
Defined.

(** * Further properties of the handlers *)

(** ** Rows and filters *)

Lemma matches_nan (r : Obj) : matches (IdEq (Some VNaN)) r = false.
Proof. reflexivity. Qed.

Lemma restrict_singleton (t : Table) (k : string) (v : Val) :
  k ∈ columns t -> restrict t {[ k := v ]} = {[ k := v ]}.
Proof.
  intros Hk. apply map_eq. intros j. rewrite lookup_restrict.
  destruct (decide (j ∈ columns t)) as [|Hj]; [done|].
  rewrite lookup_singleton_ne; [done|]. by intros ->.
Qed.

(** A string or null is bound as it is. *)
Lemma bound_str_val (s : option string) : bound (str_val s) = str_val s.
Proof. by destruct s. Qed.

Lemma bind_values_singleton (t : Table) (k : string) (v : Val) :
  k ∈ columns t -> bind_values t {[ k := v ]} = {[ k := bound v ]}.
Proof.
  intros Hk. unfold bind_values. rewrite map_fmap_singleton.
  by apply restrict_singleton.
Qed.

(** An update that assigns one column rewrites that cell in the selected
    rows and nothing else. *)
Lemma patch_row_single (t : Table) (k : string) (v : Val) (f : Filter) (r : Obj) :
  k ∈ columns t -> patch_row t {[ k := v ]} f r = set_cell k (bound v) f r.
Proof.
  intros Hk. unfold patch_row, set_cell. destruct (matches f r); [|done].
  by rewrite bind_values_singleton, insert_union_singleton_l.
Qed.

Lemma set_rows_same (t : Table) (d : DB) : set_rows t (rows t d) d = d.
Proof. by destruct t, d. Qed.


Lemma filter_all_kept (f : Filter) (l : list Obj) :
  Forall (fun r => matches f r = false) l ->
  filter (fun r => matches f r = false) l = l.
Proof.
  induction 1 as [|r l Hr _ IH]; [done|].
  rewrite filter_cons_True by done. by rewrite IH.
Qed.


Lemma apply_delete_none_selected (t : Table) (f : Filter) (d : DB) :
  Forall (fun r => matches f r = false) (rows t d) ->
  apply_delete t f d = d.
Proof.
  intros H. unfold apply_delete. rewrite filter_all_kept by done.
  apply set_rows_same.
Qed.

Lemma nan_selects_nothing (l : list Obj) :
  Forall (fun r => matches (IdEq (Some VNaN)) r = false) l.
Proof. apply Forall_forall. intros r _. apply matches_nan. Qed.

(** ** The single-field patches *)

(** Only the exact string ['on'] switches a toggle on. *)
Lemma toggle_other (ev : RequestEvent) (field : option string) :
  field <> Some "on" -> toggle ev field = VNull.
Proof.
  intros H. unfold toggle. destruct field as [s|]; [|done].
  destruct (decide (s = "on")) as [->|Hs]; [done|].
  repeat (destruct s as [|[[] [] [] [] [] [] [] []] s]; try reflexivity).
  done.
Qed.

(** A toggle is a date or null, which the driver binds as they are. *)
Lemma bound_toggle (ev : RequestEvent) (field : option string) :
  bound (toggle ev field) = toggle ev field.
Proof.
  destruct (decide (field = Some "on")) as [->|H]; [done|].
  by rewrite toggle_other.
Qed.

Section FieldPatches.
Context {Ext : Type} (env : Env Ext).
Implicit Types w : World Ext.

(** The shape shared by [updateFlagged], [updateImportance] and
    [updateRead]: one update of one column by id, then success. *)
Lemma run_field_patch (k : string) (v : Val) (f : Filter) w :
  k ∈ columns bookmarkSchema ->
  dbFault env (Update bookmarkSchema (obj [(k, Some v)]) f) (db w) = None ->
  (update env bookmarkSchema (obj [(k, Some v)]) f ;; ret succeeded)%action w
  = (logged_with w (Update bookmarkSchema (obj [(k, Some v)]) f)
       (set_rows bookmarkSchema (set_cell k (bound v) f <$> bookmarks (db w)) (db w)),
     Return succeeded).
Proof.
  intros Hk Hok. unfold bind. rewrite run_update, Hok.
  unfold ret, apply_update. simpl rows.
  replace (patch_row bookmarkSchema (obj [(k, Some v)]) f <$> bookmarks (db w))
    with (set_cell k (bound v) f <$> bookmarks (db w)); [done|].
  apply list_fmap_ext. intros i r _.
  change (obj [(k, Some v)]) with ({[ k := v ]} : Obj).
  by rewrite patch_row_single.
Qed.

(** X1.  [updateFlagged], once its update is executed, returns success and
    rewrites the [flagged] cell of the rows with the parsed id, whoever owns
    them: the cell becomes the current time when the field is exactly
    ['on'] and null for any other or missing value.  Every other cell and
    every other row is left as it was; a non-numeric id selects no row. *)
Theorem updateFlagged_sets_only_the_flag (ev : RequestEvent) w (owner : Z)
    (data : FormData) :
  owner_of ev = Some owner -> owner <> 0 ->
  formData (request ev) = Return data ->
  let flagged := toggle ev (get "flagged" data) in
  dbFault env (Update bookmarkSchema (obj [("flagged", Some flagged)])
                 (by_form_id data)) (db w) = None ->
  snd (updateFlagged env ev w) = Return succeeded
  /\ bookmarks (db (fst (updateFlagged env ev w)))
     = set_cell "flagged" flagged (by_form_id data) <$> bookmarks (db w)
  /\ (get "flagged" data = Some "on" -> flagged = VDate (now ev))
  /\ (get "flagged" data <> Some "on" -> flagged = VNull)
  /\ (parseInt (get "id" data) (Some 10) = None ->
      bookmarks (db (fst (updateFlagged env ev w))) = bookmarks (db w)).
Proof.
  intros Hown Hne Hdata flagged Hok.
  assert (updateFlagged env ev w
          = (logged_with w (Update bookmarkSchema (obj [("flagged", Some flagged)])
                              (by_form_id data))
               (set_rows bookmarkSchema
                  (set_cell "flagged" flagged (by_form_id data) <$> bookmarks (db w))
                  (db w)),
             Return succeeded)) as ->.
  { unfold updateFlagged. rewrite Hown, (owner_accepted _ Hne), Hdata.
    unfold bind at 1, lift.
    etransitivity;
      [apply run_field_patch; [simpl; rewrite !elem_of_cons; tauto|done]|].
    by rewrite bound_toggle. }
  split; [done|]. split; [done|]. split; [|split].
  - intros H. subst flagged. by rewrite H.
  - intros H. subst flagged. by apply toggle_other.
  - intros Hnan. simpl. unfold by_form_id. rewrite Hnan. simpl num_val.
    rewrite <- (list_fmap_id (bookmarks (db w))) at 2.
    apply list_fmap_ext. intros i r _. unfold set_cell. by rewrite matches_nan.
Qed.

(** X2.  [updateRead], once its update is executed, returns success and
    rewrites the [read] cell of the rows with the parsed id, whoever owns
    them: the current time when the field is exactly ['on'], null
    otherwise.  Every other cell and every other row is left as it was. *)
Theorem updateRead_sets_only_read (ev : RequestEvent) w (owner : Z)
    (data : FormData) :
  owner_of ev = Some owner -> owner <> 0 ->
  formData (request ev) = Return data ->
  let read := toggle ev (get "read" data) in
  dbFault env (Update bookmarkSchema (obj [("read", Some read)])
                 (by_form_id data)) (db w) = None ->
  snd (updateRead env ev w) = Return succeeded
  /\ bookmarks (db (fst (updateRead env ev w)))
     = set_cell "read" read (by_form_id data) <$> bookmarks (db w)
  /\ (get "read" data = Some "on" -> read = VDate (now ev))
  /\ (get "read" data <> Some "on" -> read = VNull).
Proof.
  intros Hown Hne Hdata read Hok.
  assert (updateRead env ev w
          = (logged_with w (Update bookmarkSchema (obj [("read", Some read)])
                              (by_form_id data))
               (set_rows bookmarkSchema
                  (set_cell "read" read (by_form_id data) <$> bookmarks (db w))
                  (db w)),
             Return succeeded)) as ->.
  { unfold updateRead. rewrite Hown, (owner_accepted _ Hne), Hdata.
    unfold bind at 1, lift.
    etransitivity;
      [apply run_field_patch; [simpl; rewrite !elem_of_cons; tauto|done]|].
    by rewrite bound_toggle. }
  split; [done|]. split; [done|]. split.
  - intros H. subst read. by rewrite H.
  - intros H. subst read. by apply toggle_other.
Qed.

(** X3.  [updateImportance], once its update is executed, returns success
    and rewrites the [importance] cell of the rows with the parsed id,
    whoever owns them, with [parseInt(importance || '0')] as the driver
    binds it: the number read, 0 for a missing or empty field, and null for
    a field that is no number.  Every other cell and every other row is
    left as it was. *)
Theorem updateImportance_sets_only_importance (ev : RequestEvent) w (owner : Z)
    (data : FormData) :
  owner_of ev = Some owner -> owner <> 0 ->
  formData (request ev) = Return data ->
  dbFault env (Update bookmarkSchema (obj [("importance", Some (form_importance data))])
                 (by_form_id data)) (db w) = None ->
  snd (updateImportance env ev w) = Return succeeded
  /\ bookmarks (db (fst (updateImportance env ev w)))
     = set_cell "importance" (bound (form_importance data)) (by_form_id data)
         <$> bookmarks (db w)
  /\ (forall n : Z,
        parseInt (Some (or_else (get "importance" data) "0")) None = Some n ->
        bound (form_importance data) = VNum n)
  /\ (truthy_str (get "importance" data) = false ->
      bound (form_importance data) = VNum 0)
  /\ (parseInt (Some (or_else (get "importance" data) "0")) None = None ->
      bound (form_importance data) = VNull).
Proof.
  intros Hown Hne Hdata Hok.
  assert (updateImportance env ev w
          = (logged_with w
               (Update bookmarkSchema (obj [("importance", Some (form_importance data))])
                  (by_form_id data))
               (set_rows bookmarkSchema
                  (set_cell "importance" (bound (form_importance data))
                     (by_form_id data)
                     <$> bookmarks (db w))
                  (db w)),
             Return succeeded)) as ->.
  { unfold updateImportance. rewrite Hown, (owner_accepted _ Hne), Hdata.
    unfold bind at 1, lift. apply run_field_patch; [|done].
    simpl. rewrite !elem_of_cons. tauto. }
  split; [done|]. split; [done|]. unfold form_importance. split; [|split].
  - by intros n ->.
  - intros H. unfold or_else.
    destruct (get "importance" data) as [s|]; [|reflexivity].
    by rewrite H.
  - by intros ->.
Qed.

End FieldPatches.

Lemma updateFlagged_sets_only_the_flag_witness :
  Demo.bookmark_row 2 2 (VNum 0) !! "ownerId" = Some (VNum 2)
  /\ snd (updateFlagged Demo.env Demo.flag_second Demo.world) = Return succeeded
  /\ bookmarks (db (fst (updateFlagged Demo.env Demo.flag_second Demo.world)))
     = [Demo.bookmark_row 1 1 (VNum 5);
        <["flagged" := VDate 1000]> (Demo.bookmark_row 2 2 (VNum 0))].
Proof.
  split; [reflexivity|].
  destruct (updateFlagged_sets_only_the_flag Demo.env Demo.flag_second Demo.world 1
              [("id", "2"); ("flagged", "on")]) as (Hret & Hrows & _);
    [reflexivity | lia | reflexivity | reflexivity |].
  split; [exact Hret | exact Hrows].
Defined.

Lemma updateRead_sets_only_read_witness :
  snd (updateRead Demo.env Demo.read_second Demo.world) = Return succeeded
  /\ bookmarks (db (fst (updateRead Demo.env Demo.read_second Demo.world)))
     = [Demo.bookmark_row 1 1 (VNum 5);
        <["read" := VDate 1000]> (Demo.bookmark_row 2 2 (VNum 0))].
Proof.
  destruct (updateRead_sets_only_read Demo.env Demo.read_second Demo.world 1
              [("id", "2"); ("read", "on")]) as (Hret & Hrows & _);
    [reflexivity | lia | reflexivity | reflexivity |].
  split; [exact Hret | exact Hrows].
Defined.

Lemma updateImportance_sets_only_importance_witness :
  snd (updateImportance Demo.env Demo.rate_second Demo.world) = Return succeeded
  /\ bookmarks (db (fst (updateImportance Demo.env Demo.rate_second Demo.world)))
     = [Demo.bookmark_row 1 1 (VNum 5);
        <["importance" := VNum 0]> (Demo.bookmark_row 2 2 (VNum 0))].
Proof.
  destruct (updateImportance_sets_only_importance Demo.env Demo.rate_second
              Demo.world 1 [("id", "2")]) as (Hret & Hrows & _);
    [reflexivity | lia | reflexivity | reflexivity |].
  split; [exact Hret | exact Hrows].
Defined.

(** An importance that is no number is stored as null, not as [NaN]. *)
Example updateImportance_of_a_word :
  (fun r : Obj => r !! "importance")
    <$> bookmarks (db (fst (updateImportance Demo.env Demo.rate_with_a_word
                              Demo.world)))
  = [Some VNull; Some VNull].
Proof. reflexivity. Qed.

(** ** Deleting *)

Section Deleting.
Context {Ext : Type} (env : Env Ext).
Implicit Types w : World Ext.

Lemma run_deleteBookmark (ev : RequestEvent) w (owner : Z) (data : FormData) :
  owner_of ev = Some owner -> owner <> 0 ->
  formData (request ev) = Return data ->
  deleteBookmark env ev w
  = match dbFault env (Delete bookmarkSchema (by_form_id data)) (db w) with
    | Some e => (logged w (Delete bookmarkSchema (by_form_id data)), Throw e)
    | None =>
        (logged_with w (Delete bookmarkSchema (by_form_id data))
           (apply_delete bookmarkSchema (by_form_id data) (db w)),
         Return (VObj (obj [("id", Some (num_val (parseInt (get "id" data) (Some 10))));
                            ("success", Some (VBool true))])))
    end.
Proof.
  intros Hown Hne Hdata. unfold deleteBookmark.
  rewrite Hown, (owner_accepted _ Hne), Hdata.
  unfold bind at 1, lift. unfold bind. rewrite run_delete. unfold by_form_id.
  by destruct (dbFault env _ (db w)).
Qed.

(** X5.  When the id field of the form is missing or is not a number,
    [deleteBookmark] deletes nothing, whatever the driver does, and once
    the delete is executed it still reports success, with a [NaN] id. *)
Theorem deleteBookmark_without_numeric_id (ev : RequestEvent) w (owner : Z)
    (data : FormData) :
  owner_of ev = Some owner -> owner <> 0 ->
  formData (request ev) = Return data ->
  parseInt (get "id" data) (Some 10) = None ->
  db (fst (deleteBookmark env ev w)) = db w
  /\ (dbFault env (Delete bookmarkSchema (IdEq (Some VNaN))) (db w) = None ->
      snd (deleteBookmark env ev w)
      = Return (VObj (obj [("id", Some VNaN); ("success", Some (VBool true))]))).
Proof.
  intros Hown Hne Hdata Hnan.
  rewrite (run_deleteBookmark ev w owner data) by done.
  unfold by_form_id. rewrite Hnan. simpl num_val.
  destruct (dbFault env _ (db w)); cbn [fst snd db logged logged_with].
  - split; [done|]. discriminate.
  - split; [|done]. apply apply_delete_none_selected, nan_selects_nothing.
Qed.

(** X6.  [deleteCategory] checks no ownership: for an authenticated caller,
    once the driver has executed the delete, it returns [{ success: true }],
    no category row with the parsed id remains, whoever owned it, and no
    category row has been added.  The one statement issued filters on the
    id alone. *)
Theorem deleteCategory_ignores_ownership (ev : RequestEvent) w (owner : Z)
    (data : FormData) :
  owner_of ev = Some owner -> owner <> 0 ->
  formData (request ev) = Return data ->
  dbFault env (Delete categorySchema (by_form_id data)) (db w) = None ->
  snd (deleteCategory env ev w) = Return succeeded
  /\ log (fst (deleteCategory env ev w))
     = (log w ++ [Delete categorySchema (by_form_id data)])%list
  /\ forall (n : Z) (r : Obj),
       parseInt (get "id" data) (Some 10) = Some n ->
       r ∈ categories (db (fst (deleteCategory env ev w))) ->
       r ∈ categories (db w) /\ r !! "id" <> Some (VNum n).
Proof.
  intros Hown Hne Hdata Hok.
  assert (deleteCategory env ev w
          = (logged_with w (Delete categorySchema (by_form_id data))
               (apply_delete categorySchema (by_form_id data) (db w)),
             Return succeeded)) as ->.
  { unfold deleteCategory. rewrite Hown, (owner_accepted _ Hne), Hdata.
    unfold bind at 1, lift. unfold bind. rewrite run_delete.
    unfold by_form_id in *. by rewrite Hok. }
  cbn [fst snd db log logged_with]. split; [done|]. split; [done|].
  intros n r Hn. unfold by_form_id. rewrite Hn. cbn [num_val].
  change (categories (apply_delete categorySchema ?f (db w)))
    with (filter (fun r => matches f r = false) (categories (db w))).
  rewrite list_elem_of_filter, <- matches_id_eq.
  destruct (matches (IdEq (Some (VNum n))) r); intuition congruence.
Qed.

(** X7.  When no bookmark has the parsed id, [updateIncreasedOpenedCount]
    throws a [TypeError] while destructuring the empty result: the select
    is the only statement issued, no update follows and the tables are as
    before. *)
Theorem opened_count_of_a_missing_bookmark (ev : RequestEvent) w (owner : Z)
    (data : FormData) :
  owner_of ev = Some owner -> owner <> 0 ->
  formData (request ev) = Return data ->
  dbFault env (opened_select data) (db w) = None ->
  identified data (db w) = None ->
  (exists msg : string,
     snd (updateIncreasedOpenedCount env ev w) = Throw (TypeError msg))
  /\ db (fst (updateIncreasedOpenedCount env ev w)) = db w
  /\ log (fst (updateIncreasedOpenedCount env ev w))
     = (log w ++ [opened_select data])%list.
Proof.
  intros Hown Hne Hdata Hsel Hrow.
  assert (exists msg : string,
            updateIncreasedOpenedCount env ev w
            = (logged w (opened_select data), Throw (TypeError msg))) as [msg ->].
  { unfold updateIncreasedOpenedCount.
    rewrite Hown, (owner_accepted _ Hne), Hdata.
    unfold bind at 1, lift. unfold bind at 1. rewrite run_select_stmt.
    unfold opened_select in Hsel. rewrite Hsel.
    unfold identified in Hrow. apply head_None in Hrow.
    unfold run_select. simpl rows. rewrite Hrow. by eexists. }
  split; [by exists msg|]. done.
Qed.

End Deleting.

Lemma deleteBookmark_without_numeric_id_witness :
  db (fst (deleteBookmark Demo.env Demo.without_id Demo.world)) = Demo.store
  /\ snd (deleteBookmark Demo.env Demo.without_id Demo.world)
     = Return (VObj (obj [("id", Some VNaN); ("success", Some (VBool true))])).
Proof.
  destruct (deleteBookmark_without_numeric_id Demo.env Demo.without_id Demo.world 1
              [("id", "abc")]) as (Hdb & Hret);
    [reflexivity | lia | reflexivity | reflexivity |].
  split; [exact Hdb | exact (Hret eq_refl)].
Defined.

(** User 1 deletes category 1, the only category, which belongs to user 2. *)
Lemma deleteCategory_ignores_ownership_witness :
  Demo.category_row 1 2 true !! "owner" = Some (VNum 2)
  /\ categories (db Demo.world) = [Demo.category_row 1 2 true]
  /\ snd (deleteCategory Demo.env Demo.open_first Demo.world) = Return succeeded
  /\ categories (db (fst (deleteCategory Demo.env Demo.open_first Demo.world))) = [].
Proof.
  split; [reflexivity|]. split; [reflexivity|].
  destruct (deleteCategory_ignores_ownership Demo.env Demo.open_first Demo.world 1
              [("id", "1")]) as (Hret & _ & Hrows);
    [reflexivity | lia | reflexivity | reflexivity |].
  split; [exact Hret|].
  destruct (categories (db (fst (deleteCategory Demo.env Demo.open_first
                                   Demo.world)))) as [|r0 l]; [reflexivity|].
  destruct (Hrows 1 r0 eq_refl) as [Hin Hid]; [by left|].
  apply list_elem_of_singleton in Hin as ->. by destruct Hid.
Defined.

Lemma opened_count_of_a_missing_bookmark_witness :
  (exists msg : string,
     snd (updateIncreasedOpenedCount Demo.env Demo.open_missing Demo.world)
     = Throw (TypeError msg))
  /\ db (fst (updateIncreasedOpenedCount Demo.env Demo.open_missing Demo.world))
     = Demo.store.
Proof.
  destruct (opened_count_of_a_missing_bookmark Demo.env Demo.open_missing
              Demo.world 1 [("id", "9")]) as (Hthrow & Hdb & _);
    [reflexivity | lia | reflexivity | reflexivity | reflexivity |].
  split; [exact Hthrow | exact Hdb].
Defined.

(** ** Updating a bookmark: what is written, and what escapes *)

#[global] Instance same_bookmarks_preorder : PreOrder same_bookmarks.
Proof.
  split; [by intros d|]. intros d1 d2 d3 H1 H2. unfold same_bookmarks in *.
  congruence.
Qed.

#[global] Instance same_bookmark_keys_preorder : PreOrder same_bookmark_keys.
Proof.
  split.
  - by intros d.
  - intros d1 d2 d3 (H1 & H2 & H3) (H4 & H5 & H6). repeat split; congruence.
Qed.

Lemma matches_patch_row (t : Table) (set : Obj) (f g : Filter) (r : Obj) :
  set !! "id" = None -> matches g (patch_row t set f r) = matches g r.
Proof.
  intros H. destruct g as [|[[]|]]; try reflexivity.
  simpl. by rewrite patch_row_other.
Qed.

(** The rows an update returns are the patched selected rows. *)
Lemma head_updated (t : Table) (set : Obj) (f : Filter) (l : list Obj) :
  set !! "id" = None ->
  head (filter (fun r => matches f r = true) (patch_row t set f <$> l))
  = patch_row t set f <$> head (filter (fun r => matches f r = true) l).
Proof.
  intros H. induction l as [|r l IH]; [done|].
  rewrite fmap_cons. destruct (matches f r) eqn:Hr.
  - rewrite !filter_cons_True; [done|done|]. by rewrite matches_patch_row.
  - rewrite !filter_cons_False; [done| |].
    + by rewrite Hr.
    + by rewrite matches_patch_row, Hr.
Qed.

Lemma bookmark_patch_same_keys (set : Obj) (f : Filter) (d : DB) :
  set !! "id" = None -> set !! "ownerId" = None -> set !! "categoryId" = None ->
  same_bookmark_keys d (apply_update bookmarkSchema set f d).
Proof.
  intros H1 H2 H3. split; [|done]. simpl. rewrite <- list_fmap_compose.
  apply list_fmap_ext. intros i r _. unfold compose, bookmark_key.
  by rewrite !patch_row_other.
Qed.

Lemma image_set_keys (mainImageId iconId : option Z) :
  image_set mainImageId iconId !! "id" = None
  /\ image_set mainImageId iconId !! "ownerId" = None
  /\ image_set mainImageId iconId !! "categoryId" = None.
Proof. by destruct mainImageId, iconId. Qed.

Section EditBookmark.
Context {Ext : Type} (env : Env Ext).
Implicit Types w : World Ext.

(** X8.  [updateBookmark] never moves a bookmark: for every request and
    every outcome no bookmark row is added or removed and each keeps its
    id, its [ownerId] and its [categoryId].  The owner and the category of
    the form are assigned under the keys [owner] and [category], which are
    not the cells [ownerId] and [categoryId] that [addNewBookmark] writes.
    The categories and the users are untouched. *)
Theorem updateBookmark_keeps_owner_and_category (ev : RequestEvent) w :
  bookmark_key <$> bookmarks (db (fst (updateBookmark env ev w)))
  = bookmark_key <$> bookmarks (db w)
  /\ categories (db (fst (updateBookmark env ev w))) = categories (db w)
  /\ users (db (fst (updateBookmark env ev w))) = users (db w).
Proof.
  assert (keeps (extends any same_bookmark_keys) (@any Val)
            (updateBookmark env ev)) as H.
  { unfold updateBookmark. destruct (owner_of ev) as [owner|]; [|frame].
    frame.
    all: try (apply keeps_promise_all; [apply _|done]).
    - apply keeps_update; [apply _|done|].
      intros d. by apply bookmark_patch_same_keys.
    - apply (keeps_map_sync _ (keeps (extends any same_bookmark_keys) any)).
      intros tagId. frame.
      apply keeps_insert; [apply _|done|]. by intros d.
    - apply keeps_update; [apply _|done|].
      intros d. apply bookmark_patch_same_keys; apply image_set_keys. }
  by destruct (H w) as [[_ ?] _].
Qed.

(** The join inserts [updateBookmark] builds for an existing bookmark. *)
Lemma run_build_join_inserts (b : Obj) (tagIds : list Z) w :
  map_sync
    (fun tagId =>
       bookmarkId <- member (Some b) "id" ;;
       ret (insert env bookmarksToTagsSchema (join_values bookmarkId tagId)))%action
    tagIds w
  = (w, Return ((fun tagId => insert env bookmarksToTagsSchema
                                 (join_values (b !! "id") tagId)) <$> tagIds)).
Proof.
  induction tagIds as [|t rest IH]; [done|].
  simpl map_sync. unfold bind at 1. unfold bind at 1. simpl member.
  unfold ret at 1. unfold ret at 1. unfold bind at 1.
  simpl member in IH. rewrite IH. by rewrite fmap_cons.
Qed.

(** X9.  [updateBookmark] has no [try]: an error thrown while parsing the
    category or the tags, or by the tag resolver, leaves the action as a
    thrown error, before any statement is issued. *)
Theorem updateBookmark_errors_escape (ev : RequestEvent) w (owner : Z)
    (data : FormData) :
  owner_of ev = Some owner -> owner <> 0 ->
  formData (request ev) = Return data ->
  (forall e : Thrown,
     JSON_parse env (str_val (get "category" data)) = Throw e ->
     updateBookmark env ev w = (w, Throw e))
  /\ (forall (category : Val) (e : Thrown),
        JSON_parse env (str_val (get "category" data)) = Return category ->
        truthy_str (get "tags" data) = true ->
        JSON_parse env (str_val (get "tags" data)) = Throw e ->
        updateBookmark env ev w = (w, Throw e))
  /\ (forall (category tags : Val) (x' : Ext) (e : Thrown),
        JSON_parse env (str_val (get "category" data)) = Return category ->
        (if truthy_str (get "tags" data)
         then JSON_parse env (str_val (get "tags" data))
         else Return (VArr [])) = Return tags ->
        prepareTags env tags owner (ext w) = (x', Throw e) ->
        updateBookmark env ev w = (mkWorld (db w) x' (log w), Throw e)).
Proof.
  intros Hown Hne Hdata. unfold updateBookmark.
  rewrite Hown, (owner_accepted _ Hne), Hdata.
  rewrite (run_bind _ _ w w data) by reflexivity. cbv zeta. split; [|split].
  - intros e He. erewrite run_bind_throw; [done|]. unfold lift. by rewrite He.
  - intros category e Hcat Ht He.
    erewrite run_bind; [|by unfold lift; rewrite Hcat].
    erewrite run_bind_throw; [done|]. rewrite Ht. unfold lift. by rewrite He.
  - intros category tags x' e Hcat Htags Hprep.
    erewrite run_bind; [|by unfold lift; rewrite Hcat].
    erewrite run_bind; [|by rewrite run_if_lift, Htags].
    erewrite run_bind_throw; [done|]. unfold call. by rewrite Hprep.
Qed.

(** When the driver rejects one of them, the join inserts throw the first
    rejection. *)
Lemma run_join_inserts_rejected (bookmarkId : option Val) (tagIds : list Z) w
    (e : Thrown) :
  first_rejection env (join_inserts bookmarkId tagIds) (db w) = Some e ->
  snd (promise_all
         ((fun tagId => insert env bookmarksToTagsSchema
                          (join_values bookmarkId tagId)) <$> tagIds) w)
  = Throw e.
Proof.
  revert w. induction tagIds as [|t rest IH]; intros w H; [done|].
  unfold join_inserts in H. rewrite fmap_cons in H. cbn [first_rejection] in H.
  rewrite fmap_cons. simpl promise_all. rewrite run_insert.
  destruct (dbFault env _ (db w)) as [e'|] eqn:Hf.
  - by injection H as ->.
  - specialize (IH (logged_with w (Insert bookmarksToTagsSchema
                                     (join_values bookmarkId t))
                      (apply_insert (tableDefaults env bookmarksToTagsSchema)
                         bookmarksToTagsSchema (join_values bookmarkId t) (db w)))
                  H).
    destruct (promise_all _ _) as [w2 [results|e2]]; simpl in IH; [done|].
    by rewrite IH.
Qed.

(** X10.  A tag-join insert that the driver rejects makes [updateBookmark]
    throw that error, and nothing is rolled back: the bookmark rows with
    the parsed id already carry the new title. *)
Theorem updateBookmark_join_error_escapes (ev : RequestEvent) w (owner : Z)
    (data : FormData) (category tags : Val) (x' : Ext) (tagIds : list Z)
    (b : Obj) (e : Thrown) :
  owner_of ev = Some owner -> owner <> 0 ->
  formData (request ev) = Return data ->
  JSON_parse env (str_val (get "category" data)) = Return category ->
  (if truthy_str (get "tags" data)
   then JSON_parse env (str_val (get "tags" data))
   else Return (VArr [])) = Return tags ->
  prepareTags env tags owner (ext w) = (x', Return tagIds) ->
  let assigned := bookmark_set ev owner data category tagIds in
  dbFault env (Update bookmarkSchema assigned (by_form_id data)) (db w) = None ->
  head (filter (fun r => matches (by_form_id data) r = true) (bookmarks (db w)))
  = Some b ->
  first_rejection env (join_inserts (b !! "id") tagIds)
    (apply_update bookmarkSchema assigned (by_form_id data) (db w)) = Some e ->
  snd (updateBookmark env ev w) = Throw e
  /\ length (bookmarks (db (fst (updateBookmark env ev w))))
     = length (bookmarks (db w))
  /\ forall r' : Obj,
       r' ∈ bookmarks (db (fst (updateBookmark env ev w))) ->
       matches (by_form_id data) r' = true ->
       r' !! "title" = Some (str_val (get "title" data)).
Proof.
  intros Hown Hne Hdata Hcat Htags Hprep assigned Hupd Hrow Hrej.
  subst assigned. unfold bookmark_set, form_importance in Hupd, Hrej.
  set (Q := fun (v : World Ext) (o : Outcome Val) =>
    o = Throw e
    /\ length (bookmarks (db v)) = length (bookmarks (db w))
    /\ forall r' : Obj,
         r' ∈ bookmarks (db v) -> matches (by_form_id data) r' = true ->
         r' !! "title" = Some (str_val (get "title" data))).
  cut (wp (updateBookmark env ev) Q w); [done|].
  unfold updateBookmark. rewrite Hown, (owner_accepted _ Hne), Hdata.
  apply wp_bind. unfold wp at 1. cbn [lift fst snd]. cbv zeta.
  apply wp_bind. unfold wp at 1. cbn [lift fst snd]. rewrite Hcat.
  apply wp_bind. unfold wp at 1. rewrite run_if_lift. cbn [fst snd]. rewrite Htags.
  apply wp_bind. unfold wp at 1, call. rewrite Hprep. cbn [fst snd].
  apply wp_bind. unfold wp at 1. rewrite run_update. cbn [db].
  fold (by_form_id data). rewrite Hupd. cbn [fst snd].
  match goal with
  | |- context [apply_update bookmarkSchema ?s _ _] => set (bookmarkData := s) in *
  end.
  assert (bookmarkData !! "id" = None) as Hid by reflexivity.
  assert (bookmarkData !! "title" = Some (str_val (get "title" data))) as Htitle
    by reflexivity.
  unfold apply_update at 2. rewrite rows_set_rows. simpl rows.
  rewrite head_updated, Hrow by done. simpl fmap.
  apply wp_bind. eapply wp_run; [apply run_build_join_inserts|].
  rewrite patch_row_other by done.
  match goal with |- wp _ _ ?v => set (w1 := v) end.
  pose proof (run_join_inserts_rejected (b !! "id") tagIds w1 e Hrej) as Hthrow.
  destruct (keeps_join_inserts env any same_bookmarks (b !! "id") tagIds
              ltac:(done) ltac:(by intros) w1) as [[_ Hb] _].
  unfold same_bookmarks in Hb.
  apply wp_bind. unfold wp at 1. rewrite Hthrow.
  unfold Q. rewrite Hb. subst w1. cbn [db logged logged_with bookmarks].
  change (bookmarks (apply_update bookmarkSchema ?s ?f ?d))
    with (patch_row bookmarkSchema s f <$> bookmarks d).
  split; [done|]. split; [by rewrite length_fmap|].
  intros r' Hr' Hm. apply list_elem_of_fmap in Hr' as (r & -> & _).
  rewrite matches_patch_row in Hm by done.
  rewrite <- (bound_str_val (get "title" data)).
  apply patch_row_set; [done| |done].
  simpl. rewrite !elem_of_cons. tauto.
Qed.




End EditBookmark.

Lemma updateBookmark_errors_escape_witness :
  updateBookmark Demo.env Demo.edit_with_bad_category Demo.world
  = (Demo.world, Throw (Raised "SyntaxError")).
Proof.
  destruct (updateBookmark_errors_escape Demo.env Demo.edit_with_bad_category
              Demo.world 1 [("id", "1"); ("category", "oops")]) as (H & _);
    [reflexivity | lia | reflexivity |].
  exact (H _ eq_refl).
Defined.

(** Only tag 7 is stored: of the join inserts of bookmark 2 the one of tag
    7 is executed, the one of tag 8 violates the foreign key, and the error
    leaves the action with the new title stored. *)
Lemma updateBookmark_join_error_escapes_witness :
  snd (updateBookmark Demo.known_tags_env Demo.edit_second_two_tags Demo.world)
  = Throw (Raised "SQLITE_CONSTRAINT_FOREIGNKEY")
  /\ forall r' : Obj,
       r' ∈ bookmarks (db (fst (updateBookmark Demo.known_tags_env
                                  Demo.edit_second_two_tags Demo.world))) ->
       matches (IdEq (Some (VNum 2))) r' = true ->
       r' !! "title" = Some (VStr "new").
Proof.
  destruct (updateBookmark_join_error_escapes Demo.known_tags_env
              Demo.edit_second_two_tags Demo.world 1
              [("id", "2"); ("title", "new"); ("category", "4"); ("tags", "[7,8]")]
              (VNum 4) (VArr [VNum 7; VNum 8]) 1 [7; 8]
              (Demo.bookmark_row 2 2 (VNum 0))
              (Raised "SQLITE_CONSTRAINT_FOREIGNKEY")) as (H & _ & Ht);
    [reflexivity | lia | reflexivity | reflexivity | reflexivity | reflexivity
    | reflexivity | reflexivity | reflexivity |].
  split; [exact H | exact Ht].
Defined.


(** User 1 edits bookmark 2 of user 2 and sends category 4: the title
    changes, the owner and the category do not. *)
Example updateBookmark_leaves_the_category :
  let w' := fst (updateBookmark Demo.env Demo.edit_second Demo.world) in
  (fun r : Obj => (r !! "id", r !! "title", r !! "ownerId", r !! "categoryId"))
    <$> bookmarks (db w')
  = [(Some (VNum 1), Some VNull, Some (VNum 1), Some VNull);
     (Some (VNum 2), Some (VStr "new"), Some (VNum 2), Some VNull)].
Proof. reflexivity. Qed.

(** ** Categories *)

Ltac in_columns := simpl; rewrite !elem_of_cons; tauto.

Lemma rows_set_rows_categories (rs : list Obj) (d : DB) :
  categories (set_rows categorySchema rs d) = rs.
Proof. reflexivity. Qed.

Lemma new_row_supplied (defaults : Obj) (t : Table) (values : Obj) (d : DB)
    (k : string) (v : Val) :
  values !! k = Some v -> k ∈ columns t ->
  new_row defaults t values d !! k = Some (bound v).
Proof.
  intros Hv Hk. unfold new_row. rewrite <- !(assoc_L (∪)).
  apply lookup_union_Some_l. by rewrite lookup_bind_values, decide_True, Hv.
Qed.

Lemma new_category_id (defaults values : Obj) (d : DB) :
  values !! "id" = None ->
  new_row defaults categorySchema values d !! "id" = Some (VNum (categorySeq d)).
Proof.
  intros H. unfold new_row.
  change (default ∅ _) with ({[ "id" := VNum (categorySeq d) ]} : Obj).
  rewrite <- !(assoc_L (∪)).
  rewrite lookup_union_r by apply lookup_bind_values_absent, H.
  apply lookup_union_Some_l, lookup_singleton_eq.
Qed.

(** The string ['null'] is never stored as a parent. *)
Lemma null_string_to_null_never_null (v : Val) :
  null_string_to_null v <> VStr "null".
Proof.
  destruct v as [| | | |s| | |]; try discriminate.
  destruct (decide (s = "null")) as [->|Hs]; [discriminate|].
  intros H. apply Hs. revert H. unfold null_string_to_null.
  repeat (destruct s as [|[[] [] [] [] [] [] [] []] s]; try congruence).
Qed.

Lemma categories_apply_insert (defaults values : Obj) (d : DB) :
  categories (apply_insert defaults categorySchema values d)
  = (categories d ++ [new_row defaults categorySchema values d])%list.
Proof. reflexivity. Qed.

Section Categories.
Context {Ext : Type} (env : Env Ext).
Implicit Types w : World Ext.

(** X12.  [addNewCategory], when the parent parses, the slug is made and the
    insert is executed, appends exactly one category row and returns its
    generated id with success.  The row belongs to the caller, is not an
    initial category, carries the submitted name and the slug made from it,
    and its parent is never the string ['null'].  The existing categories
    and the bookmarks are as before. *)
Theorem addNewCategory_creates_one_owned_row (ev : RequestEvent) w (owner : Z)
    (data : FormData) (parent : Val) (slug : string) :
  owner_of ev = Some owner -> owner <> 0 ->
  formData (request ev) = Return data ->
  JSON_parse env (str_val (get "parent" data)) = Return parent ->
  createSlug env (get "name" data) = Return slug ->
  dbFault env (Insert categorySchema (category_values ev owner data parent slug))
    (db w) = None ->
  exists row : Obj,
    snd (addNewCategory env ev w)
    = Return (VObj (obj [("id", Some (VNum (categorySeq (db w))));
                         ("success", Some (VBool true))]))
    /\ categories (db (fst (addNewCategory env ev w)))
       = (categories (db w) ++ [row])%list
    /\ bookmarks (db (fst (addNewCategory env ev w))) = bookmarks (db w)
    /\ row !! "id" = Some (VNum (categorySeq (db w)))
    /\ row !! "owner" = Some (VNum owner)
    /\ row !! "initial" = Some (VBool false)
    /\ row !! "name" = Some (str_val (get "name" data))
    /\ row !! "slug" = Some (VStr slug)
    /\ row !! "parent" <> Some (VStr "null").
Proof.
  intros Hown Hne Hdata Hparent Hslug Hins.
  pose (values := category_values ev owner data parent slug).
  unfold category_values in Hins.
  assert (addNewCategory env ev w
          = (logged_with w (Insert categorySchema values)
               (apply_insert (tableDefaults env categorySchema) categorySchema
                  values (db w)),
             Return (VObj (obj
               [("id", new_row (tableDefaults env categorySchema) categorySchema
                         values (db w) !! "id");
                ("success", Some (VBool true))])))) as ->.
  { unfold addNewCategory. rewrite Hown, (owner_accepted _ Hne), Hdata.
    rewrite (run_bind _ _ w w data) by reflexivity. cbv zeta.
    erewrite run_bind; [|by unfold lift; rewrite Hparent].
    erewrite run_bind; [|by unfold lift; rewrite Hslug].
    erewrite run_bind; [|by rewrite run_insert, Hins].
    reflexivity. }
  assert (values !! "id" = None) as Hid by reflexivity.
  exists (new_row (tableDefaults env categorySchema) categorySchema values (db w)).
  cbn [fst snd db logged_with].
  split; [by rewrite new_category_id|].
  split; [apply categories_apply_insert|]. split; [done|].
  split; [by apply new_category_id|].
  split; [apply (new_row_supplied _ _ _ _ _ (VNum owner)); [done|in_columns]|].
  split; [apply (new_row_supplied _ _ _ _ _ (VBool false)); [done|in_columns]|].
  split.
  { rewrite <- (bound_str_val (get "name" data)).
    apply new_row_supplied; [done|in_columns]. }
  split; [apply (new_row_supplied _ _ _ _ _ (VStr slug)); [done|in_columns]|].
  rewrite (new_row_supplied _ _ _ _ "parent"
             (null_string_to_null (value_or_self parent))) by (done || in_columns).
  intros [= E].
  apply (null_string_to_null_never_null (value_or_self parent)).
  by destruct (null_string_to_null (value_or_self parent)).
Qed.

(** X13.  [updateCategory], when the parent parses, the slug is made and the
    update is executed, returns success and rewrites the category rows with
    the parsed id, whoever owns them: they take the submitted name, the slug
    made from it and the current time as [updated], and keep their owner.
    Every other category row is left as it was. *)
Theorem updateCategory_rewrites_any_owner (ev : RequestEvent) w (owner : Z)
    (data : FormData) (parent : Val) (slug : string) :
  owner_of ev = Some owner -> owner <> 0 ->
  formData (request ev) = Return data ->
  JSON_parse env (str_val (get "parent" data)) = Return parent ->
  createSlug env (get "name" data) = Return slug ->
  dbFault env (Update categorySchema (category_set ev data parent slug)
                 (by_form_id data)) (db w) = None ->
  snd (updateCategory env ev w) = Return succeeded
  /\ length (categories (db (fst (updateCategory env ev w))))
     = length (categories (db w))
  /\ forall (i : nat) (r : Obj),
       categories (db w) !! i = Some r ->
       exists r' : Obj,
         categories (db (fst (updateCategory env ev w))) !! i = Some r'
         /\ r' !! "owner" = r !! "owner"
         /\ (matches (by_form_id data) r = false -> r' = r)
         /\ (matches (by_form_id data) r = true ->
             r' !! "name" = Some (str_val (get "name" data))
             /\ r' !! "slug" = Some (VStr slug)
             /\ r' !! "updated" = Some (VDate (now ev))).
Proof.
  intros Hown Hne Hdata Hparent Hslug Hupd.
  pose (assigned := category_set ev data parent slug).
  unfold category_set in Hupd.
  assert (updateCategory env ev w
          = (logged_with w (Update categorySchema assigned (by_form_id data))
               (apply_update categorySchema assigned (by_form_id data) (db w)),
             Return succeeded)) as ->.
  { unfold updateCategory. rewrite Hown, (owner_accepted _ Hne), Hdata.
    rewrite (run_bind _ _ w w data) by reflexivity. cbv zeta.
    erewrite run_bind; [|by unfold lift; rewrite Hparent].
    erewrite run_bind; [|by unfold lift; rewrite Hslug].
    fold (by_form_id data).
    erewrite run_bind; [|by rewrite run_update, Hupd].
    reflexivity. }
  assert (assigned !! "owner" = None) as Ho by reflexivity.
  cbn [fst snd db logged_with]. unfold apply_update. simpl rows.
  rewrite rows_set_rows_categories.
  split; [done|]. split; [by rewrite length_fmap|].
  intros i r Hi. exists (patch_row categorySchema assigned (by_form_id data) r).
  split; [by rewrite list_lookup_fmap, Hi|].
  split; [by apply patch_row_other|]. split.
  - intros Hm. unfold patch_row. by rewrite Hm.
  - intros Hm. split; [|split].
    + rewrite <- (bound_str_val (get "name" data)).
      apply patch_row_set; [done|in_columns|done].
    + apply (patch_row_set _ _ _ _ _ (VStr slug)); [done|in_columns|done].
    + apply (patch_row_set _ _ _ _ _ (VDate (now ev))); [done|in_columns|done].
Qed.

(** ** Changing the theme: what is left alone *)

(** X14.  [changeTheme] touches nothing but the settings of the caller: for
    every request and every outcome the bookmarks, the join rows and the
    categories are as before, no user row is added or removed, every user
    row keeps all its cells other than [settings], and a row whose id is not
    the caller's is unchanged. *)
Theorem changeTheme_touches_only_the_caller (ev : RequestEvent) w :
  bookmarks (db (fst (changeTheme env ev w))) = bookmarks (db w)
  /\ bookmarksToTags (db (fst (changeTheme env ev w))) = bookmarksToTags (db w)
  /\ categories (db (fst (changeTheme env ev w))) = categories (db w)
  /\ length (users (db (fst (changeTheme env ev w)))) = length (users (db w))
  /\ forall (i : nat) (r : Obj),
       users (db w) !! i = Some r ->
       exists r' : Obj,
         users (db (fst (changeTheme env ev w))) !! i = Some r'
         /\ (forall k : string, k <> "settings" -> r' !! k = r !! k)
         /\ (r !! "id" <> (VNum <$> owner_of ev) -> r' = r).
Proof.
  set (touched := fun d' : DB =>
    bookmarks d' = bookmarks (db w)
    /\ bookmarksToTags d' = bookmarksToTags (db w)
    /\ categories d' = categories (db w)
    /\ length (users d') = length (users (db w))
    /\ forall (i : nat) (r : Obj),
         users (db w) !! i = Some r ->
         exists r' : Obj,
           users d' !! i = Some r'
           /\ (forall k : string, k <> "settings" -> r' !! k = r !! k)
           /\ (r !! "id" <> (VNum <$> owner_of ev) -> r' = r)).
  assert (touched (db w)) as Hsame.
  { repeat split. intros i r Hi. by exists r. }
  change (touched (db (fst (changeTheme env ev w)))).
  destruct (owner_of ev) as [owner|] eqn:Hown;
    [|by unfold changeTheme; rewrite Hown].
  destruct (decide (owner = 0)) as [->|Hne];
    [by unfold changeTheme; rewrite Hown|].
  destruct (formData (request ev)) as [data|e] eqn:Hdata;
    [|by unfold changeTheme; rewrite Hown, (owner_accepted _ Hne), Hdata].
  destruct (dbFault env (settings_select owner) (db w)) as [e|] eqn:Hsel.
  { unfold changeTheme. rewrite Hown, (owner_accepted _ Hne), Hdata.
    rewrite (run_bind _ _ w w data) by reflexivity. cbv zeta.
    erewrite run_bind_throw;
      [|rewrite run_select_stmt; unfold settings_select in Hsel; by rewrite Hsel].
    exact Hsame. }
  rewrite (run_changeTheme env ev w owner data) by done.
  destruct (stored_settings owner (db w)) as [cell|]; [|exact Hsame].
  destruct (JSON_parse env cell) as [parsed|e]; [|exact Hsame].
  cbv zeta. destruct (dbFault env (settings_update _ _) (db w)); [exact Hsame|].
  cbn [fst db logged_with]. unfold apply_update. simpl rows.
  repeat split; try done.
  - simpl. by rewrite length_fmap.
  - intros i r Hi. simpl. rewrite list_lookup_fmap, Hi. simpl.
    eexists. split; [done|]. split.
    + intros k Hk. apply patch_row_other.
      change (obj [("settings", Some (VObj ?m))]) with ({[ "settings" := VObj m ]} : Obj).
      by apply lookup_singleton_ne.
    + intros Hid. unfold patch_row.
      destruct (matches (IdEq (Some (VNum owner))) r) eqn:Hm; [|done].
      apply matches_id_eq in Hm. by rewrite Hm in Hid.
Qed.

End Categories.

Lemma addNewCategory_creates_one_owned_row_witness :
  exists row : Obj,
    snd (addNewCategory Demo.env Demo.create_category Demo.world)
    = Return (VObj (obj [("id", Some (VNum 2)); ("success", Some (VBool true))]))
    /\ categories (db (fst (addNewCategory Demo.env Demo.create_category Demo.world)))
       = [Demo.category_row 1 2 true; row]
    /\ row !! "owner" = Some (VNum 1)
    /\ row !! "initial" = Some (VBool false)
    /\ row !! "slug" = Some (VStr "news").
Proof.
  destruct (addNewCategory_creates_one_owned_row Demo.env Demo.create_category
              Demo.world 1 [("name", "news"); ("parent", "null")] VNull "news")
    as (row & Hret & Hrows & _ & _ & Ho & Hi & _ & Hs & _);
    [reflexivity | lia | reflexivity | reflexivity | reflexivity | reflexivity |].
  exists row. split; [exact Hret|]. split; [exact Hrows|].
  split; [exact Ho|]. split; [exact Hi | exact Hs].
Defined.

Lemma updateCategory_rewrites_any_owner_witness :
  Demo.category_row 1 2 true !! "owner" = Some (VNum 2)
  /\ snd (updateCategory Demo.env Demo.rename_category Demo.world) = Return succeeded
  /\ exists r' : Obj,
       categories (db (fst (updateCategory Demo.env Demo.rename_category Demo.world)))
         !! 0%nat = Some r'
       /\ r' !! "owner" = Some (VNum 2)
       /\ r' !! "name" = Some (VStr "later").
Proof.
  split; [reflexivity|].
  destruct (updateCategory_rewrites_any_owner Demo.env Demo.rename_category
              Demo.world 1 [("id", "1"); ("name", "later"); ("parent", "null")]
              VNull "later") as (Hret & _ & Hrows);
    [reflexivity | lia | reflexivity | reflexivity | reflexivity | reflexivity |].
  split; [exact Hret|].
  destruct (Hrows 0%nat (Demo.category_row 1 2 true) eq_refl)
    as (r' & Hr' & Ho & _ & Hm).
  exists r'. split; [exact Hr'|]. split; [exact Ho|].
  exact (proj1 (Hm eq_refl)).
Defined.

(** ** [storeImage] and the file name *)

Lemma after_last_dot_no_dot (s : string) :
  existsb (Ascii.eqb ".") (list_ascii_of_string s) = false -> after_last_dot s = s.
Proof.
  destruct s as [|c r]; [done|]. cbn [list_ascii_of_string existsb]. intros H.
  apply orb_false_iff in H as [H1 H2]. cbn [after_last_dot].
  by rewrite Ascii.eqb_sym, H1, H2.
Qed.

(** X15.  The extension [url.split('.').pop()] that [storeImage] appends to
    the slug contains no dot and is the end of the URL; a URL without a dot
    is its own extension. *)
Theorem after_last_dot_is_the_last_segment (url : string) :
  existsb (Ascii.eqb ".") (list_ascii_of_string (after_last_dot url)) = false
  /\ (exists front : string, url = front ++ after_last_dot url)
  /\ (existsb (Ascii.eqb ".") (list_ascii_of_string url) = false ->
      after_last_dot url = url).
Proof.
  split; [|split; [|apply after_last_dot_no_dot]].
  - induction url as [|c r IH]; [done|].
    cbn [after_last_dot]. destruct (Ascii.eqb c ".") eqn:Hc; [done|].
    destruct (existsb _ (list_ascii_of_string r)) eqn:Hr; [done|].
    cbn [list_ascii_of_string existsb]. by rewrite Ascii.eqb_sym, Hc, Hr.
  - induction url as [|c r [front IH]]; [by exists ""|].
    cbn [after_last_dot]. destruct (Ascii.eqb c ".").
    + exists (String c front).
      change (String c r = String c (front ++ after_last_dot r)). by rewrite <- IH.
    + destruct (existsb _ (list_ascii_of_string r)).
      * exists (String c front).
        change (String c r = String c (front ++ after_last_dot r)). by rewrite <- IH.
      * by exists "".
Qed.

(** ** Creating a bookmark: ownership and partial failure *)

#[global] Instance adds_rows_of_preorder (owner : Z) : PreOrder (adds_rows_of owner).
Proof.
  split.
  - intros d. exists []. split; [by rewrite app_nil_r|done].
  - intros d1 d2 d3 (n1 & H1 & F1) (n2 & H2 & F2). exists (n1 ++ n2)%list.
    split; [by rewrite H2, H1, app_assoc|by apply Forall_app].
Qed.

Lemma owner_cells_insert_bookmark (defaults values : Obj) (owner : Z) (d : DB) :
  values !! "ownerId" = Some (VNum owner) ->
  adds_rows_of owner d (apply_insert defaults bookmarkSchema values d).
Proof.
  intros Hv. exists [Some (VNum owner)]. split; [|by repeat constructor].
  unfold owner_cells. rewrite bookmarks_apply_insert, fmap_app. f_equal.
  rewrite list_fmap_singleton. f_equal.
  apply (new_row_supplied _ _ _ _ _ (VNum owner)); [done|in_columns].
Qed.

Lemma owner_cells_patch (owner : Z) (mainImageId iconId : option Z) (f : Filter)
    (d : DB) :
  adds_rows_of owner d
    (apply_update bookmarkSchema (image_set mainImageId iconId) f d).
Proof.
  exists []. split; [|done]. rewrite app_nil_r. unfold owner_cells. simpl.
  rewrite <- list_fmap_compose. apply list_fmap_ext. intros i r _.
  unfold compose. apply patch_row_other, image_set_keys.
Qed.

Section OwnedBookmarks.
Context {Ext : Type} (env : Env Ext).
Implicit Types w : World Ext.

(** X17.  [addNewBookmark] stores bookmarks for the caller only: whatever the
    form holds and whatever the outcome, every existing row keeps its
    [ownerId] and every row added carries the id of the authenticated user. *)
Theorem addNewBookmark_owns_what_it_adds (ev : RequestEvent) w (owner : Z)
    (data : FormData) :
  owner_of ev = Some owner -> owner <> 0 ->
  formData (request ev) = Return data ->
  exists news : list (option Val),
    owner_cells (db (fst (addNewBookmark env ev w)))
    = (owner_cells (db w) ++ news)%list
    /\ Forall (eq (Some (VNum owner))) news.
Proof.
  intros Hown Hne Hdata.
  rewrite (run_addNewBookmark env ev w owner data) by done.
  cut (keeps (extends any (adds_rows_of owner)) (@any Val)
         (try_catch (addNewBookmark_try env ev owner data)
            (fun e => ret (handlePBError env (inl e))))).
  { intros H. by destruct (H w) as [[_ ?] _]. }
  unfold addNewBookmark_try. cbv zeta.
  frame.
  - apply keeps_insert; [apply _|done|]. intros d.
    by apply owner_cells_insert_bookmark.
  - apply keeps_join_inserts; [apply _|done|].
    intros defaults values d. exists []. split; [by rewrite app_nil_r|done].
  - apply keeps_update; [apply _|done|]. intros d. apply owner_cells_patch.
Qed.

End OwnedBookmarks.

Lemma addNewBookmark_owns_what_it_adds_witness :
  exists news : list (option Val),
    owner_cells (db (fst (addNewBookmark Demo.env Demo.save_with_two_tags Demo.world)))
    = ([Some (VNum 1); Some (VNum 2)] ++ news)%list
    /\ Forall (eq (Some (VNum 1))) news.
Proof.
  apply (addNewBookmark_owns_what_it_adds Demo.env Demo.save_with_two_tags
           Demo.world 1
           [("url", "http://x"); ("tags", "[7,8]"); ("category", "4");
            ("main_image_url", "http://x/a.txt")]);
    [reflexivity | lia | reflexivity].
Defined.

Section StoredThenFailed.
Context {Ext : Type} (env : Env Ext).
Implicit Types w : World Ext.

(** Once the bookmark insert and the join inserts are executed,
    [addNewBookmark] has stored the bookmark and one join row per tag; what
    is left is [finish_bookmark]. *)
Lemma run_addNewBookmark_rows (ev : RequestEvent) w (owner : Z) (data : FormData)
    (category tags : Val) (x' : Ext) (tagIds : list Z) :
  JSON_parse env (str_val (get "category" data)) = Return category ->
  (if truthy_str (get "tags" data)
   then JSON_parse env (str_val (get "tags" data))
   else Return (VArr [])) = Return tags ->
  prepareTags env tags owner (ext w) = (x', Return tagIds) ->
  bookmarkSeq (db w) <> 0 ->
  let stmts := Insert bookmarkSchema (bookmark_values ev owner data category)
               :: join_inserts (Some (VNum (bookmarkSeq (db w)))) tagIds in
  let bookmark := new_row (tableDefaults env bookmarkSchema) bookmarkSchema
                    (bookmark_values ev owner data category) (db w) in
  executes env stmts (db w) ->
  addNewBookmark_try env ev owner data w
  = finish_bookmark env data owner bookmark
      (mkWorld (run_all env stmts (db w)) x' (log w ++ stmts))
  /\ bookmark !! "id" = Some (VNum (bookmarkSeq (db w)))
  /\ bookmarks (run_all env stmts (db w)) = (bookmarks (db w) ++ [bookmark])%list
  /\ bookmarksToTags (run_all env stmts (db w))
     = (bookmarksToTags (db w)
        ++ (join_values (Some (VNum (bookmarkSeq (db w)))) <$> tagIds))%list.
Proof.
  intros Hcat Htags Hprep Hseq stmts bookmark [Hins Hjoins].
  assert (bookmark !! "id" = Some (VNum (bookmarkSeq (db w)))) as Hid
    by by apply new_bookmark_id.
  destruct (run_all_join_inserts env (bookmarkSeq (db w)) tagIds
              (executed env (Insert bookmarkSchema
                               (bookmark_values ev owner data category)) (db w)))
    as [Hjoin Hbook].
  split; [|split; [done|split; [exact Hbook|exact Hjoin]]].
  unfold addNewBookmark_try. cbv zeta.
  erewrite run_bind; [|by unfold lift; rewrite Hcat].
  erewrite run_bind; [|by rewrite run_if_lift, Htags].
  erewrite run_bind; [|by unfold call; rewrite Hprep].
  pose proof Hins as Hins'. unfold bookmark_values, form_importance in Hins'.
  erewrite run_bind; [|by rewrite run_insert; cbn [db]; rewrite Hins'].
  erewrite run_bind; [|reflexivity]. cbn [head].
  fold (form_importance data). fold (bookmark_values ev owner data category).
  fold bookmark. rewrite Hid. cbn [truthy]. rewrite (owner_accepted _ Hseq).
  match goal with
  | |- context [logged_with ?a ?b ?c] => set (w1 := logged_with a b c)
  end.
  destruct (run_join_inserts env (Some (VNum (bookmarkSeq (db w)))) tagIds w1 Hjoins)
    as [results Hrun].
  erewrite run_bind; [|exact Hrun]. unfold finish_bookmark. rewrite Hid.
  subst w1. unfold logged_with. cbn [db ext log]. rewrite <- app_assoc.
  reflexivity.
Qed.

Lemma truthy_num_nonzero (m : Z) : m <> 0 -> truthy_num (Some m) = true.
Proof.
  intros H. apply negb_false_iff. exact (owner_accepted m H).
Qed.

(** X18.  The guard [if (!bookmark.id)] of [addNewBookmark] comes after the
    insert: when the insert is executed and the row comes back with the id
    0, the action answers with what the error helper makes of the row and
    issues no join insert for the resolved tags, and the row stays in the
    bookmark table. *)
Theorem addNewBookmark_keeps_the_row_it_reports (ev : RequestEvent) w (owner : Z)
    (data : FormData) (category tags : Val) (x' : Ext) (tagIds : list Z) :
  owner_of ev = Some owner -> owner <> 0 ->
  formData (request ev) = Return data ->
  JSON_parse env (str_val (get "category" data)) = Return category ->
  (if truthy_str (get "tags" data)
   then JSON_parse env (str_val (get "tags" data))
   else Return (VArr [])) = Return tags ->
  prepareTags env tags owner (ext w) = (x', Return tagIds) ->
  dbFault env (Insert bookmarkSchema (bookmark_values ev owner data category))
    (db w) = None ->
  bookmarkSeq (db w) = 0 ->
  let bookmark := new_row (tableDefaults env bookmarkSchema) bookmarkSchema
                    (bookmark_values ev owner data category) (db w) in
  snd (addNewBookmark env ev w) = Return (handlePBError env (inr (VObj bookmark)))
  /\ bookmark !! "id" = Some (VNum 0)
  /\ bookmarks (db (fst (addNewBookmark env ev w)))
     = (bookmarks (db w) ++ [bookmark])%list
  /\ bookmarksToTags (db (fst (addNewBookmark env ev w))) = bookmarksToTags (db w)
  /\ log (fst (addNewBookmark env ev w))
     = (log w ++ [Insert bookmarkSchema (bookmark_values ev owner data category)])%list.
Proof.
  intros Hown Hne Hdata Hcat Htags Hprep Hins Hseq bookmark.
  assert (bookmark !! "id" = Some (VNum 0)) as Hid.
  { unfold bookmark. rewrite new_bookmark_id by done. by rewrite Hseq. }
  assert (addNewBookmark_try env ev owner data w
          = (logged_with (mkWorld (db w) x' (log w))
               (Insert bookmarkSchema (bookmark_values ev owner data category))
               (apply_insert (tableDefaults env bookmarkSchema) bookmarkSchema
                  (bookmark_values ev owner data category) (db w)),
             Return (handlePBError env (inr (VObj bookmark))))) as Hrun.
  { unfold addNewBookmark_try. cbv zeta.
    erewrite run_bind; [|by unfold lift; rewrite Hcat].
    erewrite run_bind; [|by rewrite run_if_lift, Htags].
    erewrite run_bind; [|by unfold call; rewrite Hprep].
    pose proof Hins as Hins'. unfold bookmark_values, form_importance in Hins'.
    erewrite run_bind; [|by rewrite run_insert; cbn [db]; rewrite Hins'].
    erewrite run_bind; [|reflexivity]. cbn [head].
    fold (form_importance data). fold (bookmark_values ev owner data category).
    fold bookmark. rewrite Hid.
    change (negb (truthy (Some (VNum 0)))) with true. cbv iota.
    reflexivity. }
  rewrite (run_addNewBookmark env ev w owner data Hown Hne Hdata).
  unfold try_catch. rewrite Hrun. cbn [fst snd db log logged_with].
  split; [reflexivity|]. split; [exact Hid|]. split; [|split; reflexivity].
  apply bookmarks_apply_insert.
Qed.

(** X19.  [addNewBookmark] undoes nothing: when the bookmark insert and the
    join inserts are executed, the main image passes the test of
    [storeImage] and its download fails, the error is answered through the
    error helper, while the bookmark row and the join row of every tag,
    written before, stay stored. *)
Theorem addNewBookmark_keeps_rows_when_fetch_fails (ev : RequestEvent) w (owner : Z)
    (data : FormData) (category tags : Val) (x' x1 : Ext) (tagIds : list Z)
    (u : string) (e : Thrown) :
  owner_of ev = Some owner -> owner <> 0 ->
  formData (request ev) = Return data ->
  JSON_parse env (str_val (get "category" data)) = Return category ->
  (if truthy_str (get "tags" data)
   then JSON_parse env (str_val (get "tags" data))
   else Return (VArr [])) = Return tags ->
  prepareTags env tags owner (ext w) = (x', Return tagIds) ->
  bookmarkSeq (db w) <> 0 ->
  executes env
    (Insert bookmarkSchema (bookmark_values ev owner data category)
     :: join_inserts (Some (VNum (bookmarkSeq (db w)))) tagIds) (db w) ->
  get "main_image_url" data = Some u ->
  archivable env (Some u) = true ->
  fetch env u x' = (x1, Throw e) ->
  let bookmark := new_row (tableDefaults env bookmarkSchema) bookmarkSchema
                    (bookmark_values ev owner data category) (db w) in
  snd (addNewBookmark env ev w) = Return (handlePBError env (inl e))
  /\ bookmark !! "id" = Some (VNum (bookmarkSeq (db w)))
  /\ bookmarks (db (fst (addNewBookmark env ev w)))
     = (bookmarks (db w) ++ [bookmark])%list
  /\ bookmarksToTags (db (fst (addNewBookmark env ev w)))
     = (bookmarksToTags (db w)
        ++ (join_values (Some (VNum (bookmarkSeq (db w)))) <$> tagIds))%list.
Proof.
  intros Hown Hne Hdata Hcat Htags Hprep Hseq Hexec Hu Harch Hfetch bookmark.
  destruct (run_addNewBookmark_rows ev w owner data category tags x' tagIds
              Hcat Htags Hprep Hseq Hexec) as (Hrun & Hid & Hbook & Hjoin).
  fold bookmark in Hrun, Hid, Hbook.
  match type of Hrun with
  | _ = finish_bookmark _ _ _ _ ?v => set (w2 := v) in *
  end.
  assert (addNewBookmark env ev w
          = (mkWorld (db w2) x1 (log w2), Return (handlePBError env (inl e)))) as ->.
  { rewrite (run_addNewBookmark env ev w owner data Hown Hne Hdata).
    unfold try_catch. rewrite Hrun. unfold finish_bookmark.
    erewrite run_bind_throw; [reflexivity|].
    rewrite Hu. unfold storeImage. unfold archivable in Harch. rewrite Harch.
    erewrite run_bind_throw; [reflexivity|].
    unfold call, w2. cbn [ext]. by rewrite Hfetch. }
  cbn [fst snd db]. split; [reflexivity|]. split; [exact Hid|].
  split; [exact Hbook | exact Hjoin].
Qed.

(** X20.  The response of [addNewBookmark] carries the row as the insert
    returned it, not as the image patch left it: when the statements of the
    action are executed and the main image is archived under the file id
    [m] (the icon being skipped), the stored row of the new bookmark has
    [mainImageId = m], while the [bookmark] of the response still has the
    null reference it was inserted with.  The patch assigns [mainImageId]
    and nothing else, since the undefined [iconId] is no assignment. *)
Theorem addNewBookmark_answers_with_the_unpatched_row (ev : RequestEvent) w
    (owner : Z) (data : FormData) (category tags : Val) (x' x1 x2 : Ext)
    (tagIds : list Z) (u bytes slug : string) (m : Z) :
  owner_of ev = Some owner -> owner <> 0 ->
  formData (request ev) = Return data ->
  JSON_parse env (str_val (get "category" data)) = Return category ->
  (if truthy_str (get "tags" data)
   then JSON_parse env (str_val (get "tags" data))
   else Return (VArr [])) = Return tags ->
  prepareTags env tags owner (ext w) = (x', Return tagIds) ->
  bookmarkSeq (db w) <> 0 ->
  get "main_image_url" data = Some u ->
  archivable env (Some u) = true ->
  fetch env u x' = (x1, Return bytes) ->
  createSlug env (get "title" data) = Return slug ->
  storeFile env bytes owner (slug ++ "." ++ after_last_dot u) x1 = (x2, Return m) ->
  m <> 0 ->
  archivable env (get "icon_url" data) = false ->
  let bookmarkId := VNum (bookmarkSeq (db w)) in
  executes env
    (Insert bookmarkSchema (bookmark_values ev owner data category)
     :: join_inserts (Some bookmarkId) tagIds
     ++ [Update bookmarkSchema (image_set (Some m) None) (IdEq (Some bookmarkId))])
    (db w) ->
  tableDefaults env bookmarkSchema !! "mainImageId" = None ->
  let bookmark := new_row (tableDefaults env bookmarkSchema) bookmarkSchema
                    (bookmark_values ev owner data category) (db w) in
  snd (addNewBookmark env ev w)
  = Return (VObj (obj [("bookmark", Some (VObj bookmark));
                       ("success", Some (VBool true))]))
  /\ bookmark !! "mainImageId" = Some VNull
  /\ bookmarks (db (fst (addNewBookmark env ev w)))
     = ((set_cell "mainImageId" (VNum m) (IdEq (Some bookmarkId))
           <$> bookmarks (db w))
        ++ [<["mainImageId" := VNum m]> bookmark])%list.
Proof.
  intros Hown Hne Hdata Hcat Htags Hprep Hseq Hu Harch Hfetch Hslug Hstore Hm
    Hicon bookmarkId Hexec Hdef bookmark.
  change (Insert bookmarkSchema (bookmark_values ev owner data category)
          :: join_inserts (Some bookmarkId) tagIds
          ++ [Update bookmarkSchema (image_set (Some m) None)
                (IdEq (Some bookmarkId))])%list
    with ((Insert bookmarkSchema (bookmark_values ev owner data category)
           :: join_inserts (Some bookmarkId) tagIds)
          ++ [Update bookmarkSchema (image_set (Some m) None)
                (IdEq (Some bookmarkId))])%list in Hexec.
  apply executes_app in Hexec as [Hexec [Hupd _]].
  destruct (run_addNewBookmark_rows ev w owner data category tags x' tagIds
              Hcat Htags Hprep Hseq Hexec) as (Hrun & Hid & Hbook & Hjoin).
  fold bookmark in Hrun, Hid, Hbook. fold bookmarkId in Hrun, Hbook, Hjoin, Hid.
  match type of Hrun with
  | _ = finish_bookmark _ _ _ _ ?v => set (w2 := v) in *
  end.
  pose (patch := Update bookmarkSchema (image_set (Some m) None)
                   (IdEq (Some bookmarkId))).
  assert (addNewBookmark env ev w
          = (logged_with (mkWorld (db w2) x2 (log w2)) patch
               (apply_update bookmarkSchema (image_set (Some m) None)
                  (IdEq (Some bookmarkId)) (db w2)),
             Return (VObj (obj [("bookmark", Some (VObj bookmark));
                                ("success", Some (VBool true))])))) as ->.
  { rewrite (run_addNewBookmark env ev w owner data Hown Hne Hdata).
    unfold try_catch. rewrite Hrun. unfold finish_bookmark.
    erewrite run_bind.
    2:{ rewrite Hu. unfold storeImage. unfold archivable in Harch. rewrite Harch.
        erewrite run_bind; [|by unfold call, w2; cbn [ext]; rewrite Hfetch].
        erewrite run_bind; [|by unfold lift; rewrite Hslug].
        cbv zeta.
        erewrite run_bind; [|by unfold call; cbn [ext]; rewrite Hstore].
        reflexivity. }
    erewrite run_bind; [|by apply storeImage_skipped].
    rewrite (truthy_num_nonzero m Hm). cbn [orb].
    erewrite run_bind.
    2:{ erewrite run_bind; [reflexivity|].
        rewrite run_update. unfold w2. cbn [db]. rewrite Hid.
        fold bookmarkId. rewrite Hupd. reflexivity. }
    reflexivity. }
  cbn [fst snd]. split; [done|]. split.
  { unfold bookmark, new_row.
    change (default ∅ _) with ({[ "id" := VNum (bookmarkSeq (db w)) ]} : Obj).
    rewrite <- !(assoc_L (∪)).
    rewrite lookup_union_r by by apply lookup_bind_values_absent.
    rewrite lookup_union_r by by apply lookup_singleton_ne.
    rewrite lookup_union_r by apply lookup_restrict_absent, Hdef.
    rewrite lookup_null_row. apply decide_True. in_columns. }
  unfold logged_with, w2. cbn [db]. unfold apply_update.
  change (bookmarks (set_rows bookmarkSchema ?rs ?d)) with rs.
  change (rows bookmarkSchema ?d) with (bookmarks d).
  rewrite Hbook, fmap_app, list_fmap_singleton.
  change (image_set (Some m) None) with ({[ "mainImageId" := VNum m ]} : Obj).
  f_equal.
  - apply list_fmap_ext. intros _ r _.
    apply (patch_row_single _ _ (VNum m)). in_columns.
  - f_equal. rewrite (patch_row_single _ _ (VNum m)) by in_columns.
    unfold set_cell.
    assert (matches (IdEq (Some bookmarkId)) bookmark = true) as ->
      by by apply matches_id_eq.
    done.
Qed.

End StoredThenFailed.

Lemma addNewBookmark_keeps_the_row_it_reports_witness :
  exists bookmark : Obj,
    snd (addNewBookmark Demo.env Demo.save_with_two_tags Demo.zero_world)
    = Return (Demo.report (inr (VObj bookmark)))
    /\ bookmark !! "id" = Some (VNum 0)
    /\ bookmarks (db (fst (addNewBookmark Demo.env Demo.save_with_two_tags
                             Demo.zero_world)))
       = [bookmark]
    /\ bookmarksToTags (db (fst (addNewBookmark Demo.env Demo.save_with_two_tags
                                   Demo.zero_world)))
       = [].
Proof.
  eexists.
  destruct (addNewBookmark_keeps_the_row_it_reports Demo.env Demo.save_with_two_tags
              Demo.zero_world 1
              [("url", "http://x"); ("tags", "[7,8]"); ("category", "4");
               ("main_image_url", "http://x/a.txt")]
              (VNum 4) (VArr [VNum 7; VNum 8]) 1 [7; 8])
    as (Hret & Hid & Hrows & Hjoin & _);
    [reflexivity | lia | reflexivity | reflexivity | reflexivity | reflexivity
    | reflexivity | reflexivity |].
  split; [exact Hret|]. split; [exact Hid|]. split; [exact Hrows | exact Hjoin].
Defined.

Lemma addNewBookmark_keeps_rows_when_fetch_fails_witness :
  exists bookmark : Obj,
    snd (addNewBookmark Demo.offline_env Demo.save_with_image Demo.world)
    = Return (Demo.report (inl (Raised "fetch failed")))
    /\ bookmark !! "id" = Some (VNum 3)
    /\ bookmarks (db (fst (addNewBookmark Demo.offline_env Demo.save_with_image
                             Demo.world)))
       = [Demo.bookmark_row 1 1 (VNum 5); Demo.bookmark_row 2 2 (VNum 0); bookmark]
    /\ bookmarksToTags (db (fst (addNewBookmark Demo.offline_env
                                   Demo.save_with_image Demo.world)))
       = [Demo.join_row 1 7; Demo.join_row 3 7; Demo.join_row 3 8].
Proof.
  eexists.
  apply (addNewBookmark_keeps_rows_when_fetch_fails Demo.offline_env
           Demo.save_with_image Demo.world 1
           [("url", "http://x"); ("title", "x"); ("tags", "[7,8]");
            ("category", "4"); ("main_image_url", "http://x/a.png")]
           (VNum 4) (VArr [VNum 7; VNum 8]) 1 1 [7; 8]
           "http://x/a.png" (Raised "fetch failed"));
    [reflexivity | lia | reflexivity | reflexivity | reflexivity | reflexivity
    | simpl; lia | repeat split | reflexivity | reflexivity | reflexivity].
Defined.

Lemma addNewBookmark_answers_with_the_unpatched_row_witness :
  exists bookmark : Obj,
    snd (addNewBookmark Demo.env Demo.save_with_image Demo.world)
    = Return (VObj (obj [("bookmark", Some (VObj bookmark));
                         ("success", Some (VBool true))]))
    /\ bookmark !! "mainImageId" = Some VNull
    /\ bookmarks (db (fst (addNewBookmark Demo.env Demo.save_with_image Demo.world)))
       = ((set_cell "mainImageId" (VNum 1) (IdEq (Some (VNum 3)))
             <$> [Demo.bookmark_row 1 1 (VNum 5); Demo.bookmark_row 2 2 (VNum 0)])
          ++ [<["mainImageId" := VNum 1]> bookmark])%list.
Proof.
  eexists.
  apply (addNewBookmark_answers_with_the_unpatched_row Demo.env
           Demo.save_with_image Demo.world 1
           [("url", "http://x"); ("title", "x"); ("tags", "[7,8]");
            ("category", "4"); ("main_image_url", "http://x/a.png")]
           (VNum 4) (VArr [VNum 7; VNum 8]) 1 1 2 [7; 8]
           "http://x/a.png" "bytes" "x" 1);
    [reflexivity | lia | reflexivity | reflexivity | reflexivity | reflexivity
    | simpl; lia | reflexivity | reflexivity | reflexivity | reflexivity
    | reflexivity | lia | reflexivity | repeat split | reflexivity].
Defined.
